(** * Verification of the skill reconciliation engine ([src/verify.ts])

    The development embeds [checkSymlinkIntegrity] and [verifySkills] as
    Rocq functions over an explicit record of the collaborators they await
    (lock readers, installer discovery, agent catalogue, [fs/promises],
    [path], [String.prototype.localeCompare]) and proves the properties the
    specification states about them. *)

From Stdlib Require Import String Ascii List ZArith Lia Bool Arith.
From Stdlib Require Import Sorting.Sorted Sorting.Permutation.
Import ListNotations.
Local Open Scope string_scope.

(** ** Data model (verify.ts, lines 19-55) *)

(** [AgentType] is a union of string literals in [types.ts]. *)
Definition AgentType := string.

(** [type VerifyStatus = 'ok' | 'modified' | 'missing' | 'untracked' | 'invalid'] *)
Inductive VerifyStatus : Type :=
| ok
| modified
| missing
| untracked
| invalid.

Definition VerifyStatus_eqb (a b : VerifyStatus) : bool :=
  match a, b with
  | ok, ok | modified, modified | missing, missing
  | untracked, untracked | invalid, invalid => true
  | _, _ => false
  end.

Record BrokenSymlink : Type := {
  agent : AgentType;
  link : string
}.

(** Optional properties ([expectedHash?], [actualHash?], [error?]) are
    [option]s: [None] is JavaScript's [undefined]. *)
Record VerifyResult : Type := {
  name : string;
  path : string;
  status : VerifyStatus;
  expectedHash : option string;
  actualHash : option string;
  agents : list AgentType;
  brokenSymlinks : list BrokenSymlink;
  error : option string
}.

Module Counts.
Record t : Type := {
    ok : nat;
    modified : nat;
    missing : nat;
    untracked : nat;
    invalid : nat;
    brokenSymlinks : nat
  }.

Definition zero : t := Build_t 0 0 0 0 0 0.

  (** [counts.ok++] and its four siblings. *)
Definition incr_ok (c : t) : t :=
    Build_t (S (ok c)) (modified c) (missing c) (untracked c) (invalid c) (brokenSymlinks c).
Definition incr_modified (c : t) : t :=
    Build_t (ok c) (S (modified c)) (missing c) (untracked c) (invalid c) (brokenSymlinks c).
Definition incr_missing (c : t) : t :=
    Build_t (ok c) (modified c) (S (missing c)) (untracked c) (invalid c) (brokenSymlinks c).
Definition incr_untracked (c : t) : t :=
    Build_t (ok c) (modified c) (missing c) (S (untracked c)) (invalid c) (brokenSymlinks c).
Definition incr_invalid (c : t) : t :=
    Build_t (ok c) (modified c) (missing c) (untracked c) (S (invalid c)) (brokenSymlinks c).

  (** [counts.brokenSymlinks += n] *)
Definition add_brokenSymlinks (n : nat) (c : t) : t :=
    Build_t (ok c) (modified c) (missing c) (untracked c) (invalid c) (brokenSymlinks c + n).
End Counts.

(** [scope: 'project' | 'global'] *)
Inductive Scope : Type :=
| project
| global.

Record VerifySummary : Type := {
  scope : Scope;
  results : list VerifyResult;
  counts : Counts.t
}.

(** What [installer.ts] reports for one skill found on disk; only the
    three properties that [verify.ts] reads. *)
Module InstalledSkill.
Record t : Type := {
    name : string;
    canonicalPath : string;
    agents : list AgentType
  }.
End InstalledSkill.

(** One entry of the lock file.  [verifySkills] casts it to
    [{ computedHash: string }] without a run-time check, so the property can
    be absent ([None]) or any string, the empty one included. *)
Record LockEntry : Type := {
  source : string;
  sourceType : string;
  computedHash : option string
}.

(** [lockFile.skills] is a plain object; it is held as what
    [Object.entries] returns: the own properties in property order.  A
    JavaScript object has each key once, which the theorems that need it
    state as [NoDup (map fst _)]. *)
Record LockFile : Type := {
  version : nat;
  skills : list (string * LockEntry)
}.

(** The options object of [verifySkills]: every property is optional. *)
Module Options.
Record t : Type := {
    global : option bool;
    cwd : option string;
    agentFilter : option (list AgentType)
  }.
End Options.

(** ** Collaborators *)

(** The [fs.Stats] of an [lstat]: only the kind of the entry is consulted
    ([stats.isSymbolicLink()]). *)
Inductive Stats : Type :=
| SymbolicLink
| Directory
| RegularFile
| OtherEntry.

Definition isSymbolicLink (s : Stats) : bool :=
  match s with
  | SymbolicLink => true
  | _ => false
  end.

(** Settlement of the promise of [computeSkillFolderHash]. *)
Inductive Settled (A : Type) : Type :=
| Resolved (value : A)
| Rejected (message : string).
Arguments Resolved {A} value.
Arguments Rejected {A} message.

(** What [parseSkillMd] resolves to when the file is a valid SKILL.md. *)
Record Skill : Type := {
  skill_name : string;
  skill_description : string
}.

(** Everything [verify.ts] imports and awaits.  A promise that rejects inside
    a [try] block is an [option] ([None]) or a [Rejected]; [null] is [None]. *)
Record World : Type := {
  (* process *)
  process_cwd : string;
  (* path *)
  join : string -> string -> string;
  dirname : string -> string;
  resolve : string -> string -> string;
  (* fs/promises *)
  lstat : string -> option Stats;
  readlink : string -> option string;
  (* installer.ts *)
  getAgentBaseDir : AgentType -> bool -> string -> string;
  getCanonicalSkillsDir : bool -> string -> string;
  listInstalledSkills :
    bool -> string -> option (list AgentType) -> list InstalledSkill.t;
  (* agents.ts *)
  detectInstalledAgents : list AgentType;
  (* local-lock.ts and skill-lock.ts *)
  computeSkillFolderHash : string -> Settled string;
  readLocalLock : string -> LockFile;
  readSkillLock : LockFile;
  (* skills.ts *)
  parseSkillMd : string -> option Skill;
  (* String.prototype.localeCompare: negative, zero or positive *)
  localeCompare : string -> string -> Z
}.

(** ** JavaScript helpers *)

(** [a || b] on an optional string: [undefined] and [''] are falsy. *)
Definition or_else (a : option string) (b : string) : string :=
  match a with
  | Some s => if String.eqb s "" then b else s
  | None => b
  end.

(** [a ?? false] on an optional boolean. *)
Definition nullish_false (a : option bool) : bool :=
  match a with
  | Some b => b
  | None => false
  end.

(** Truthiness of an optional string. *)
Definition truthy (a : option string) : bool :=
  match a with
  | Some s => negb (String.eqb s "")
  | None => false
  end.

(** [a !== b] where [a] is a string and [b] a string or [undefined]. *)
Definition strict_neq (a : string) (b : option string) : bool :=
  match b with
  | Some s => negb (String.eqb a s)
  | None => true
  end.

(** [Array.prototype.includes] on an array of strings. *)
Definition includes (l : list string) (a : string) : bool :=
  existsb (String.eqb a) l.

(** [Array.prototype.push] *)
Definition push {A : Type} (l : list A) (x : A) : list A := l ++ [x].

(** A [Map<string, V>]: the entries in insertion order, each key once. *)
Module JsMap.
Section WithValues.
Context {V : Type}.

Definition t : Type := list (string * V).

Definition empty : t := [].

Fixpoint get (k : string) (m : t) : option V :=
      match m with
      | [] => None
      | (k', v) :: m' => if String.eqb k k' then Some v else get k m'
      end.

    (** [set] on a key already present replaces the value and keeps the
        entry where it is; a new key goes last. *)
Fixpoint set (k : string) (v : V) (m : t) : t :=
      match m with
      | [] => [(k, v)]
      | (k', v') :: m' =>
          if String.eqb k k' then (k, v) :: m' else (k', v') :: set k v m'
      end.

Fixpoint delete (k : string) (m : t) : t :=
      match m with
      | [] => []
      | (k', v') :: m' =>
          if String.eqb k k' then m' else (k', v') :: delete k m'
      end.

Definition keys (m : t) : list string := map fst m.
End WithValues.
Arguments t V : clear implicits.
End JsMap.

(** [Array.prototype.sort] with a comparator is a stable sort (ES2019);
    for a consistent comparator every stable sort returns the same array,
    here the one of insertion sort. *)
Section ArraySort.
Context {A : Type} (cmp : A -> A -> Z).

Fixpoint sort_insert (x : A) (l : list A) : list A :=
    match l with
    | [] => [x]
    | y :: l' => if (cmp x y <=? 0)%Z then x :: y :: l' else y :: sort_insert x l'
    end.

Fixpoint Array_sort (l : list A) : list A :=
    match l with
    | [] => []
    | x :: l' => sort_insert x (Array_sort l')
    end.
End ArraySort.

(** ** [checkSymlinkIntegrity] (verify.ts, lines 80-115) *)

Module SymlinkOptions.
Record t : Type := {
    global : option bool;
    cwd : option string
  }.
End SymlinkOptions.

(** The body of the [for (const agentType of agentsToCheck)] loop: the array
    after this iteration.  [continue] and the empty [catch] both leave
    [brokenSymlinks] as it is. *)
Definition checkAgent (w : World) (skillName canonicalPath : string)
    (options : SymlinkOptions.t) (cwd : string)
    (brokenSymlinks : list BrokenSymlink) (agentType : AgentType)
    : list BrokenSymlink :=
  let agentDir :=
    getAgentBaseDir w agentType (nullish_false (SymlinkOptions.global options)) cwd in
  let skillLink := join w agentDir skillName in
  if String.eqb agentDir
       (getCanonicalSkillsDir w (nullish_false (SymlinkOptions.global options)) cwd)
  then brokenSymlinks
  else
    match lstat w skillLink with
    | None => brokenSymlinks
    | Some stats =>
        if isSymbolicLink stats then
          match readlink w skillLink with
          | None => brokenSymlinks
          | Some target =>
              let resolvedTarget := resolve w (dirname w skillLink) target in
              if negb (String.eqb resolvedTarget canonicalPath)
              then push brokenSymlinks {| agent := agentType; link := skillLink |}
              else brokenSymlinks
          end
        else brokenSymlinks
    end.

Definition checkSymlinkIntegrity (w : World) (skillName canonicalPath : string)
    (agentsToCheck : list AgentType) (options : SymlinkOptions.t)
    : list BrokenSymlink :=
  let cwd := or_else (SymlinkOptions.cwd options) (process_cwd w) in
  fold_left (checkAgent w skillName canonicalPath options cwd) agentsToCheck [].

(** ** [verifySkills] (verify.ts, lines 117-267) *)

(** The three values the loops update: [results], [counts] and
    [installedMap]. *)
Record LoopState : Type := {
  st_results : list VerifyResult;
  st_counts : Counts.t;
  st_installedMap : JsMap.t InstalledSkill.t
}.

(** Lines 149-152: [installedMap.set(skill.name, skill)] for every skill. *)
Definition buildInstalledMap (installedSkills : list InstalledSkill.t)
    : JsMap.t InstalledSkill.t :=
  fold_left (fun m skill => JsMap.set (InstalledSkill.name skill) skill m)
            installedSkills JsMap.empty.

(** Lines 156-158. *)
Definition selectAgents (agentFilter : option (list AgentType))
    (detectedAgents : list AgentType) : list AgentType :=
  match agentFilter with
  | Some f => filter (fun a => includes f a) detectedAgents
  | None => detectedAgents
  end.

(** Lines 161-240: one iteration of the loop over [Object.entries(lockedSkills)]. *)
Definition lockedStep (w : World) (isGlobal : bool) (cwd : string)
    (agentsToCheck : list AgentType) (st : LoopState)
    (entry : string * LockEntry) : LoopState :=
  let '(skillName, lockEntry) := entry in
  match JsMap.get skillName (st_installedMap st) with
  | None =>
      {| st_results := push (st_results st)
           {| name := skillName;
              path := "";
              status := missing;
              expectedHash := None;
              actualHash := None;
              agents := [];
              brokenSymlinks := [];
              error := Some "Skill in lock file but not found on disk" |};
         st_counts := Counts.incr_missing (st_counts st);
         st_installedMap := st_installedMap st |}
  | Some installed =>
      let installedMap := JsMap.delete skillName (st_installedMap st) in
      match parseSkillMd w (join w (InstalledSkill.canonicalPath installed) "SKILL.md") with
      | None =>
          {| st_results := push (st_results st)
               {| name := skillName;
                  path := InstalledSkill.canonicalPath installed;
                  status := invalid;
                  expectedHash := None;
                  actualHash := None;
                  agents := InstalledSkill.agents installed;
                  brokenSymlinks := [];
                  error := Some "SKILL.md is missing or invalid" |};
             st_counts := Counts.incr_invalid (st_counts st);
             st_installedMap := installedMap |}
      | Some _ =>
          let '(status1, expectedHash1, actualHash1, counts1) :=
            if negb isGlobal then
              let expectedHash := computedHash lockEntry in
              match computeSkillFolderHash w (InstalledSkill.canonicalPath installed) with
              | Resolved actualHash =>
                  if truthy expectedHash && strict_neq actualHash expectedHash
                  then (modified, expectedHash, Some actualHash,
                        Counts.incr_modified (st_counts st))
                  else (ok, expectedHash, Some actualHash,
                        Counts.incr_ok (st_counts st))
              | Rejected _ =>
                  (invalid, expectedHash, None, Counts.incr_invalid (st_counts st))
              end
            else (ok, None, None, Counts.incr_ok (st_counts st)) in
          let broken :=
            checkSymlinkIntegrity w skillName (InstalledSkill.canonicalPath installed)
              agentsToCheck
              {| SymlinkOptions.global := Some isGlobal; SymlinkOptions.cwd := Some cwd |} in
          {| st_results := push (st_results st)
               {| name := skillName;
                  path := InstalledSkill.canonicalPath installed;
                  status := status1;
                  expectedHash := expectedHash1;
                  actualHash := actualHash1;
                  agents := InstalledSkill.agents installed;
                  brokenSymlinks := broken;
                  error := None |};
             st_counts := Counts.add_brokenSymlinks (List.length broken) counts1;
             st_installedMap := installedMap |}
      end
  end.

(** Lines 243-261: one iteration of the loop over what is left in
    [installedMap], which the loop does not modify. *)
Definition untrackedStep (w : World) (isGlobal : bool) (cwd : string)
    (agentsToCheck : list AgentType) (st : LoopState)
    (entry : string * InstalledSkill.t) : LoopState :=
  let '(skillName, installed) := entry in
  let broken :=
    checkSymlinkIntegrity w skillName (InstalledSkill.canonicalPath installed)
      agentsToCheck
      {| SymlinkOptions.global := Some isGlobal; SymlinkOptions.cwd := Some cwd |} in
  {| st_results := push (st_results st)
       {| name := skillName;
          path := InstalledSkill.canonicalPath installed;
          status := untracked;
          expectedHash := None;
          actualHash := None;
          agents := InstalledSkill.agents installed;
          brokenSymlinks := broken;
          error := Some "Skill on disk but not in lock file" |};
     st_counts :=
       Counts.incr_untracked
         (Counts.add_brokenSymlinks (List.length broken) (st_counts st));
     st_installedMap := st_installedMap st |}.

(** The state when the second loop has finished, before the sort. *)
Definition verifyLoops (w : World) (options : Options.t) : LoopState :=
  let cwd := or_else (Options.cwd options) (process_cwd w) in
  let isGlobal := nullish_false (Options.global options) in
  let agentFilter := Options.agentFilter options in
  let lockFile := if isGlobal then readSkillLock w else readLocalLock w cwd in
  let lockedSkills := skills lockFile in
  let installedSkills := listInstalledSkills w isGlobal cwd agentFilter in
  let installedMap := buildInstalledMap installedSkills in
  let detectedAgents := detectInstalledAgents w in
  let agentsToCheck := selectAgents agentFilter detectedAgents in
  let st1 :=
    fold_left (lockedStep w isGlobal cwd agentsToCheck) lockedSkills
      {| st_results := [];
         st_counts := Counts.zero;
         st_installedMap := installedMap |} in
  fold_left (untrackedStep w isGlobal cwd agentsToCheck) (st_installedMap st1) st1.

Definition verifySkills (w : World) (options : Options.t) : VerifySummary :=
  let isGlobal := nullish_false (Options.global options) in
  let st := verifyLoops w options in
  {| scope := if isGlobal then global else project;
     results :=
       Array_sort (fun a b => localeCompare w (name a) (name b)) (st_results st);
     counts := st_counts st |}.

(** ** A concrete world for examples

    POSIX-flavoured [path] functions on paths that need no normalisation,
    and a comparison of names by code units. *)
Module Fixture.
Definition join (a b : string) : string := a ++ "/" ++ b.

  (** [Some d] when [s] holds a slash, [d] being what precedes the last one. *)
Fixpoint beforeLastSlash (s : string) : option string :=
    match s with
    | EmptyString => None
    | String c s' =>
        match beforeLastSlash s' with
        | Some d => Some (String c d)
        | None => if Ascii.eqb c "/"%char then Some EmptyString else None
        end
    end.

Definition dirname (s : string) : string :=
    match beforeLastSlash s with
    | Some EmptyString => "/"
    | Some d => d
    | None => "."
    end.

Definition resolve (from to : string) : string :=
    match to with
    | String "/"%char _ => to
    | _ => join from to
    end.

Fixpoint codeUnitCompare (a b : string) : Z :=
    match a, b with
    | EmptyString, EmptyString => 0
    | EmptyString, String _ _ => -1
    | String _ _, EmptyString => 1
    | String x a', String y b' =>
        match Nat.compare (Ascii.nat_of_ascii x) (Ascii.nat_of_ascii y) with
        | Lt => -1
        | Gt => 1
        | Eq => codeUnitCompare a' b'
        end
    end%Z.

  (** A project whose canonical store is [/proj/.agents/skills]; the agent
      [universal] uses the store itself, every other agent [/proj/.<agent>/skills]. *)
Definition getCanonicalSkillsDir (isGlobal : bool) (cwd : string) : string :=
    join (join cwd ".agents") "skills".

Definition getAgentBaseDir (a : AgentType) (isGlobal : bool) (cwd : string) : string :=
    if String.eqb a "universal" then getCanonicalSkillsDir isGlobal cwd
    else join (join cwd ("." ++ a)) "skills".
End Fixture.

Module FixtureWorld.
(** What is on the disk of an example: symbolic links with their targets,
    plain directories, the SKILL.md files that parse, and the outcome of
    fingerprinting a folder. *)
Record Disk : Type := {
  links : list (string * string);
  dirs : list string;
  skillMds : list string;
  hashes : list (string * Settled string)
}.

Definition make (localLock globalLock : LockFile)
    (installed : list InstalledSkill.t) (detected : list AgentType)
    (d : Disk) : World :=
  {| process_cwd := "/proj";
     join := Fixture.join;
     dirname := Fixture.dirname;
     resolve := Fixture.resolve;
     lstat := fun p =>
       match JsMap.get p (links d) with
       | Some _ => Some SymbolicLink
       | None => if includes (dirs d) p then Some Directory else None
       end;
     readlink := fun p => JsMap.get p (links d);
     getAgentBaseDir := Fixture.getAgentBaseDir;
     getCanonicalSkillsDir := Fixture.getCanonicalSkillsDir;
     listInstalledSkills := fun _ _ _ => installed;
     detectInstalledAgents := detected;
     computeSkillFolderHash := fun p =>
       match JsMap.get p (hashes d) with
       | Some s => s
       | None => Rejected "ENOENT"
       end;
     readLocalLock := fun _ => localLock;
     readSkillLock := globalLock;
     parseSkillMd := fun p =>
       if includes (skillMds d) p
       then Some {| skill_name := "skill"; skill_description := "a skill" |}
       else None;
     localeCompare := Fixture.codeUnitCompare |}.

Definition emptyLock : LockFile := {| version := 1; skills := [] |}.

Definition lockOf (l : list (string * option string)) : LockFile :=
  {| version := 1;
     skills := map (fun e => (fst e,
                              {| source := "test/repo";
                                 sourceType := "github";
                                 computedHash := snd e |})) l |}.

Definition installedAt (n : string) (agts : list AgentType) : InstalledSkill.t :=
  {| InstalledSkill.name := n;
     InstalledSkill.canonicalPath := "/proj/.agents/skills/" ++ n;
     InstalledSkill.agents := agts |}.

Definition projectOptions : Options.t :=
  {| Options.global := None; Options.cwd := None; Options.agentFilter := None |}.

Definition globalOptions : Options.t :=
  {| Options.global := Some true; Options.cwd := None; Options.agentFilter := None |}.
End FixtureWorld.

(** Scenarios E and F of the specification: the agent [cursor] links skill
    [x] to another folder, and the agent [universal] lives in the canonical
    store, where a stray link is ignored. *)
Definition scenarioLinks : World :=
  FixtureWorld.make FixtureWorld.emptyLock FixtureWorld.emptyLock [] ["universal"; "cursor"]
    {| FixtureWorld.links :=
         [("/proj/.cursor/skills/x", "/other/x");
          ("/proj/.agents/skills/x", "/elsewhere/x")];
       FixtureWorld.dirs := ["/proj/.claude/skills/x"];
       FixtureWorld.skillMds := [];
       FixtureWorld.hashes := [] |}.

Definition scenarioSymlinkOptions : SymlinkOptions.t :=
  {| SymlinkOptions.global := Some false; SymlinkOptions.cwd := Some "/proj" |}.

(** ** Definitions the statements use *)

(** The finding of one agent on an empty array: none or one. *)
Definition findingsOf (w : World) (skillName canonicalPath : string)
    (options : SymlinkOptions.t) (a : AgentType) : list BrokenSymlink :=
  checkAgent w skillName canonicalPath options
    (or_else (SymlinkOptions.cwd options) (process_cwd w)) [] a.

(** The options [verifySkills] hands to the checker. *)
Definition symlinkOptions (isGlobal : bool) (cwd : string) : SymlinkOptions.t :=
  {| SymlinkOptions.global := Some isGlobal; SymlinkOptions.cwd := Some cwd |}.

(** The values [verifySkills] derives from its options before the loops. *)
Definition cwdOf (w : World) (options : Options.t) : string :=
  or_else (Options.cwd options) (process_cwd w).

Definition isGlobalOf (options : Options.t) : bool :=
  nullish_false (Options.global options).

Definition lockedSkillsOf (w : World) (options : Options.t) : list (string * LockEntry) :=
  skills (if isGlobalOf options then readSkillLock w else readLocalLock w (cwdOf w options)).

Definition installedSkillsOf (w : World) (options : Options.t) : list InstalledSkill.t :=
  listInstalledSkills w (isGlobalOf options) (cwdOf w options) (Options.agentFilter options).

Definition agentsToCheckOf (w : World) (options : Options.t) : list AgentType :=
  selectAgents (Options.agentFilter options) (detectInstalledAgents w).

(** Number of results with a given status, and number of broken links over
    all results. *)
Definition tally (s : VerifyStatus) (rs : list VerifyResult) : nat :=
  List.length (filter (fun r => VerifyStatus_eqb (status r) s) rs).

Definition totalBrokenSymlinks (rs : list VerifyResult) : nat :=
  list_sum (map (fun r => List.length (brokenSymlinks r)) rs).

(** [counts] is the tally of [results]. *)
Definition countsTally (c : Counts.t) (rs : list VerifyResult) : Prop :=
  Counts.ok c = tally ok rs /\
  Counts.modified c = tally modified rs /\
  Counts.missing c = tally missing rs /\
  Counts.untracked c = tally untracked rs /\
  Counts.invalid c = tally invalid rs /\
  Counts.brokenSymlinks c = totalBrokenSymlinks rs.

Definition stateTally (st : LoopState) : Prop :=
  countsTally (st_counts st) (st_results st).

(** The result the first loop pushes for a lock entry, given what
    [installedMap.get(skillName)] returned. *)
Definition lockedResult (w : World) (isGlobal : bool) (cwd : string)
    (agentsToCheck : list AgentType) (found : option InstalledSkill.t)
    (entry : string * LockEntry) : VerifyResult :=
  let skillName := fst entry in
  match found with
  | None =>
      {| name := skillName; path := ""; status := missing;
         expectedHash := None; actualHash := None; agents := [];
         brokenSymlinks := [];
         error := Some "Skill in lock file but not found on disk" |}
  | Some installed =>
      let canonical := InstalledSkill.canonicalPath installed in
      match parseSkillMd w (join w canonical "SKILL.md") with
      | None =>
          {| name := skillName; path := canonical; status := invalid;
             expectedHash := None; actualHash := None;
             agents := InstalledSkill.agents installed;
             brokenSymlinks := [];
             error := Some "SKILL.md is missing or invalid" |}
      | Some _ =>
          let checked (s : VerifyStatus) (expected actual : option string) :=
            {| name := skillName; path := canonical; status := s;
               expectedHash := expected; actualHash := actual;
               agents := InstalledSkill.agents installed;
               brokenSymlinks :=
                 checkSymlinkIntegrity w skillName canonical agentsToCheck
                   (symlinkOptions isGlobal cwd);
               error := None |} in
          if isGlobal then checked ok None None
          else
            let expected := computedHash (snd entry) in
            match computeSkillFolderHash w canonical with
            | Resolved actual =>
                if truthy expected && strict_neq actual expected
                then checked modified expected (Some actual)
                else checked ok expected (Some actual)
            | Rejected _ => checked invalid expected None
            end
      end
  end.

(** The result the second loop pushes for an entry left in [installedMap]. *)
Definition untrackedResult (w : World) (isGlobal : bool) (cwd : string)
    (agentsToCheck : list AgentType) (entry : string * InstalledSkill.t)
    : VerifyResult :=
  {| name := fst entry;
     path := InstalledSkill.canonicalPath (snd entry);
     status := untracked;
     expectedHash := None;
     actualHash := None;
     agents := InstalledSkill.agents (snd entry);
     brokenSymlinks :=
       checkSymlinkIntegrity w (fst entry) (InstalledSkill.canonicalPath (snd entry))
         agentsToCheck (symlinkOptions isGlobal cwd);
     error := Some "Skill on disk but not in lock file" |}.

(** [installedMap] after the first loop has deleted the names of [entries]. *)
Definition deleteAll {V E : Type} (entries : list (string * E)) (m : JsMap.t V)
    : JsMap.t V :=
  fold_left (fun m e => JsMap.delete (fst e) m) entries m.

(** [results] is in ascending order of [name] under [localeCompare]. *)
Definition nameLe (w : World) (a b : VerifyResult) : Prop :=
  (localeCompare w (name a) (name b) <= 0)%Z.

(** A lock with [b] and [a], a disk with [c] and [a] (reported twice by the
    installer), no agents. *)
Definition scenarioUnion : World :=
  FixtureWorld.make
    (FixtureWorld.lockOf [("b", Some "h1"); ("a", Some "h2")])
    FixtureWorld.emptyLock
    [FixtureWorld.installedAt "c" []; FixtureWorld.installedAt "a" [];
     FixtureWorld.installedAt "a" ["cursor"]]
    []
    {| FixtureWorld.links := [];
       FixtureWorld.dirs := [];
       FixtureWorld.skillMds := ["/proj/.agents/skills/a/SKILL.md"];
       FixtureWorld.hashes := [("/proj/.agents/skills/a", Resolved "h2")] |}.

(** Skill [x] is locked and installed with a SKILL.md that parses; the
    examples differ in the recorded hash and in what fingerprinting gives. *)
Definition diskOfX (fingerprint : Settled string) : FixtureWorld.Disk :=
  {| FixtureWorld.links := [];
     FixtureWorld.dirs := [];
     FixtureWorld.skillMds := ["/proj/.agents/skills/x/SKILL.md"];
     FixtureWorld.hashes := [("/proj/.agents/skills/x", fingerprint)] |}.

(** Scenario D: recorded hash [h1], recomputed hash [h2]. *)
Definition scenarioModified : World :=
  FixtureWorld.make (FixtureWorld.lockOf [("x", Some "h1")]) FixtureWorld.emptyLock
    [FixtureWorld.installedAt "x" []] [] (diskOfX (Resolved "h2")).

(** The recorded hash is the empty string, the recomputed hash is [h2]. *)
Definition scenarioEmptyHash : World :=
  FixtureWorld.make (FixtureWorld.lockOf [("x", Some "")]) FixtureWorld.emptyLock
    [FixtureWorld.installedAt "x" []] [] (diskOfX (Resolved "h2")).

(** The global lock holds [x]; its entries carry no [computedHash], and
    fingerprinting the folder would fail. *)
Definition scenarioGlobal : World :=
  FixtureWorld.make FixtureWorld.emptyLock (FixtureWorld.lockOf [("x", None)])
    [FixtureWorld.installedAt "x" []] [] (diskOfX (Rejected "EACCES")).

(** [w] with another [computeSkillFolderHash]. *)
Definition withComputeSkillFolderHash (w : World) (h : string -> Settled string)
    : World :=
  {| process_cwd := process_cwd w;
     join := join w;
     dirname := dirname w;
     resolve := resolve w;
     lstat := lstat w;
     readlink := readlink w;
     getAgentBaseDir := getAgentBaseDir w;
     getCanonicalSkillsDir := getCanonicalSkillsDir w;
     listInstalledSkills := listInstalledSkills w;
     detectInstalledAgents := detectInstalledAgents w;
     computeSkillFolderHash := h;
     readLocalLock := readLocalLock w;
     readSkillLock := readSkillLock w;
     parseSkillMd := parseSkillMd w;
     localeCompare := localeCompare w |}.

(** Skill [gone] is locked and its canonical folder is gone, while the agents
    [cursor] and [claude] still hold links named [gone], with different
    targets; skill [x] is locked and installed, its SKILL.md does not parse,
    and [cursor] links it to another folder. *)
Definition scenarioDanglingLinks : World :=
  FixtureWorld.make
    (FixtureWorld.lockOf [("x", Some "h1"); ("gone", Some "h0")])
    FixtureWorld.emptyLock
    [FixtureWorld.installedAt "x" ["cursor"]] ["cursor"; "claude"]
    {| FixtureWorld.links :=
         [("/proj/.cursor/skills/x", "/other/x");
          ("/proj/.cursor/skills/gone", "/other/gone");
          ("/proj/.claude/skills/gone", "/proj/.agents/skills/gone")];
       FixtureWorld.dirs := [];
       FixtureWorld.skillMds := [];
       FixtureWorld.hashes := [("/proj/.agents/skills/x", Resolved "h1")] |}.

(** Skills [x] and [y] are locked and installed with SKILL.md files that
    parse; fingerprinting [x] throws, fingerprinting [y] gives the recorded
    hash. *)
Definition scenarioHashThrows : World :=
  FixtureWorld.make
    (FixtureWorld.lockOf [("x", Some "h1"); ("y", Some "h2")])
    FixtureWorld.emptyLock
    [FixtureWorld.installedAt "x" []; FixtureWorld.installedAt "y" []] []
    {| FixtureWorld.links := [];
       FixtureWorld.dirs := [];
       FixtureWorld.skillMds :=
         ["/proj/.agents/skills/x/SKILL.md"; "/proj/.agents/skills/y/SKILL.md"];
       FixtureWorld.hashes :=
         [("/proj/.agents/skills/x", Rejected "EACCES: permission denied");
          ("/proj/.agents/skills/y", Resolved "h2")] |}.

(** What [brokenSymlinks] of a result holds, by status: nothing for a
    [missing] skill; the findings of the checker on the result's name and
    path for [ok], [modified] and [untracked], and for [invalid] unless the
    result is the one of a SKILL.md that does not parse. *)
Definition brokenSymlinksByStatus (w : World) (options : Options.t)
    (r : VerifyResult) : Prop :=
  let checked :=
    checkSymlinkIntegrity w (name r) (path r) (agentsToCheckOf w options)
      (symlinkOptions (isGlobalOf options) (cwdOf w options)) in
  match status r with
  | missing => brokenSymlinks r = []
  | invalid =>
      error r <> Some "SKILL.md is missing or invalid" -> brokenSymlinks r = checked
  | ok | modified | untracked => brokenSymlinks r = checked
  end.

(** Two worlds give a run of [verifySkills] the same answers: same working
    directory, [path] functions, collation and agent directories; same lock
    entries of the scope, installed skills and detected agents; and the same
    answers of the file system where the run probes it: SKILL.md and
    fingerprint of each installed skill (the fingerprint in project scope
    only), [lstat] of each link path of an agent to check, [readlink] where
    [lstat] reports a symbolic link. *)
Definition sameObservations (w1 w2 : World) (options : Options.t) : Prop :=
  process_cwd w1 = process_cwd w2
  /\ (forall a b, join w1 a b = join w2 a b)
  /\ (forall p, dirname w1 p = dirname w2 p)
  /\ (forall a b, resolve w1 a b = resolve w2 a b)
  /\ (forall a b, localeCompare w1 a b = localeCompare w2 a b)
  /\ (forall a g c, getAgentBaseDir w1 a g c = getAgentBaseDir w2 a g c)
  /\ (forall g c, getCanonicalSkillsDir w1 g c = getCanonicalSkillsDir w2 g c)
  /\ lockedSkillsOf w1 options = lockedSkillsOf w2 options
  /\ installedSkillsOf w1 options = installedSkillsOf w2 options
  /\ detectInstalledAgents w1 = detectInstalledAgents w2
  /\ (forall s, In s (installedSkillsOf w1 options) ->
        parseSkillMd w1 (join w1 (InstalledSkill.canonicalPath s) "SKILL.md")
        = parseSkillMd w2 (join w1 (InstalledSkill.canonicalPath s) "SKILL.md")
        /\ (isGlobalOf options = false ->
            computeSkillFolderHash w1 (InstalledSkill.canonicalPath s)
            = computeSkillFolderHash w2 (InstalledSkill.canonicalPath s)))
  /\ (forall a s, In a (agentsToCheckOf w1 options) ->
        In s (installedSkillsOf w1 options) ->
        let p := join w1 (getAgentBaseDir w1 a (isGlobalOf options) (cwdOf w1 options))
                   (InstalledSkill.name s) in
        lstat w1 p = lstat w2 p
        /\ (lstat w1 p = Some SymbolicLink -> readlink w1 p = readlink w2 p)).

(** Every entry of [installedMap] is an installed skill under its own name. *)
Definition entriesInstalled (installed : list InstalledSkill.t)
    (m : JsMap.t InstalledSkill.t) : Prop :=
  forall k s, In (k, s) m -> InstalledSkill.name s = k /\ In s installed.

(** Skill [x], recorded hash [h1], recomputed [h2], and the agent [cursor]
    linking it to another folder; the second world differs where the run does
    not look: another global lock, another lock version, a link and a
    fingerprint elsewhere on the disk. *)
Definition scenarioRunOne : World :=
  FixtureWorld.make (FixtureWorld.lockOf [("x", Some "h1")]) FixtureWorld.emptyLock
    [FixtureWorld.installedAt "x" ["cursor"]] ["cursor"]
    {| FixtureWorld.links := [("/proj/.cursor/skills/x", "/other/x")];
       FixtureWorld.dirs := [];
       FixtureWorld.skillMds := ["/proj/.agents/skills/x/SKILL.md"];
       FixtureWorld.hashes := [("/proj/.agents/skills/x", Resolved "h2")] |}.

Definition scenarioRunTwo : World :=
  FixtureWorld.make
    {| version := 3; skills := skills (FixtureWorld.lockOf [("x", Some "h1")]) |}
    (FixtureWorld.lockOf [("zz", None)])
    [FixtureWorld.installedAt "x" ["cursor"]] ["cursor"]
    {| FixtureWorld.links :=
         [("/proj/.cursor/skills/x", "/other/x"); ("/tmp/elsewhere", "/nowhere")];
       FixtureWorld.dirs := ["/tmp/dir"];
       FixtureWorld.skillMds :=
         ["/proj/.agents/skills/x/SKILL.md"; "/tmp/dir/SKILL.md"];
       FixtureWorld.hashes :=
         [("/proj/.agents/skills/x", Resolved "h2"); ("/tmp/dir", Resolved "h9")] |}.


(** ** Command line ([parseVerifyOptions], verify.ts, lines 19-24 and 57-78) *)

Module VerifyOptions.
Record t : Type := {
  global : option bool;
  agent : option (list string);
  verbose : option bool;
  json : option bool
}.

(** [const options: VerifyOptions = {}] *)
Definition empty : t :=
  {| global := None; agent := None; verbose := None; json := None |}.

Definition set_global (o : t) : t :=
  {| global := Some true; agent := agent o; verbose := verbose o; json := json o |}.

Definition set_verbose (o : t) : t :=
  {| global := global o; agent := agent o; verbose := Some true; json := json o |}.

Definition set_json (o : t) : t :=
  {| global := global o; agent := agent o; verbose := verbose o; json := Some true |}.

(** [options.agent = options.agent || []]: an array is truthy, empty or not. *)
Definition init_agent (o : t) : t :=
  {| global := global o;
     agent := Some match agent o with Some l => l | None => [] end;
     verbose := verbose o; json := json o |}.

(** [options.agent.push(a)], after [init_agent]. *)
Definition push_agent (o : t) (a : string) : t :=
  {| global := global o;
     agent := Some (push match agent o with Some l => l | None => [] end a);
     verbose := verbose o; json := json o |}.
End VerifyOptions.

(** [s.startsWith('-')] *)
Definition startsWithDash (s : string) : bool := String.prefix "-" s.

(** The [for] loop from index [i] on, [args] being the arguments from
    [args[i]].  The inner [fix] is the [while] loop: its argument holds the
    arguments from [args[i + 1]]; it pushes them while they do not start with
    a dash, and the [for] loop resumes at the first that does. *)
Fixpoint parseVerifyArgs (args : list string) (options : VerifyOptions.t)
    {struct args} : VerifyOptions.t :=
  match args with
  | [] => options
  | arg :: rest =>
      if String.eqb arg "-g" || String.eqb arg "--global" then
        parseVerifyArgs rest (VerifyOptions.set_global options)
      else if String.eqb arg "-v" || String.eqb arg "--verbose" then
        parseVerifyArgs rest (VerifyOptions.set_verbose options)
      else if String.eqb arg "--json" then
        parseVerifyArgs rest (VerifyOptions.set_json options)
      else if String.eqb arg "-a" || String.eqb arg "--agent" then
        (fix collect (following : list string) (options : VerifyOptions.t)
             {struct following} : VerifyOptions.t :=
           match following with
           | [] => options
           | next :: following' =>
               if negb (startsWithDash next)
               then collect following' (VerifyOptions.push_agent options next)
               else parseVerifyArgs following options
           end) rest (VerifyOptions.init_agent options)
      else parseVerifyArgs rest options
  end.

Definition parseVerifyOptions (args : list string) : VerifyOptions.t :=
  parseVerifyArgs args VerifyOptions.empty.

(** The [while] loop of [parseVerifyArgs] on its own: [following] holds the
    arguments after the last one consumed. *)
Definition collectAgents : list string -> VerifyOptions.t -> VerifyOptions.t :=
  fix collect (following : list string) (options : VerifyOptions.t)
      {struct following} : VerifyOptions.t :=
    match following with
    | [] => options
    | next :: following' =>
        if negb (startsWithDash next)
        then collect following' (VerifyOptions.push_agent options next)
        else parseVerifyArgs following options
    end.

Definition isGlobalFlag (a : string) : bool := String.eqb a "-g" || String.eqb a "--global".
Definition isVerboseFlag (a : string) : bool := String.eqb a "-v" || String.eqb a "--verbose".
Definition isJsonFlag (a : string) : bool := String.eqb a "--json".
Definition isAgentFlag (a : string) : bool := String.eqb a "-a" || String.eqb a "--agent".

(** The two loops as one pass over the arguments: the state is the options
    and whether the [while] loop is collecting agent names. *)
Definition parseStep (st : VerifyOptions.t * bool) (arg : string)
    : VerifyOptions.t * bool :=
  let '(options, collecting) := st in
  if collecting && negb (startsWithDash arg) then
    (VerifyOptions.push_agent options arg, true)
  else if isGlobalFlag arg then (VerifyOptions.set_global options, false)
  else if isVerboseFlag arg then (VerifyOptions.set_verbose options, false)
  else if isJsonFlag arg then (VerifyOptions.set_json options, false)
  else if isAgentFlag arg then (VerifyOptions.init_agent options, true)
  else (options, false).

(** What two runs of the parser give when their arguments are put one after
    the other: a flag is set when either sets it, the agents follow each
    other. *)
Definition orFlag (a b : option bool) : option bool :=
  match a, b with
  | Some true, _ | _, Some true => Some true
  | Some false, _ => Some false
  | None, _ => b
  end.

Definition mergeVerifyOptions (a b : VerifyOptions.t) : VerifyOptions.t :=
  {| VerifyOptions.global := orFlag (VerifyOptions.global a) (VerifyOptions.global b);
     VerifyOptions.agent :=
       match VerifyOptions.agent a, VerifyOptions.agent b with
       | Some la, Some lb => Some (la ++ lb)%list
       | Some la, None => Some la
       | None, other => other
       end;
     VerifyOptions.verbose := orFlag (VerifyOptions.verbose a) (VerifyOptions.verbose b);
     VerifyOptions.json := orFlag (VerifyOptions.json a) (VerifyOptions.json b) |}.

(** The arguments are at their end or go on with one that starts with a dash. *)
Definition startsAtFlag (args : list string) : Prop :=
  match args with
  | [] => True
  | a :: _ => startsWithDash a = true
  end.

(** The agent names of parsed options, none when [agent] is not set. *)
Definition agentNames (o : VerifyOptions.t) : list string :=
  match VerifyOptions.agent o with
  | Some l => l
  | None => []
  end.

Definition noDash (a : string) : Prop := startsWithDash a = false.

(** ** Output formatting (verify.ts, lines 273-427) *)

From Stdlib Require Import DecimalString.

Local Open Scope nat_scope.

(** Concatenation of arrays of lines. *)
Local Infix "+++" := (@List.app string) (at level 60, right associativity).

(** What the formatters and [runVerify] take from outside [verify.ts]:
    [os.homedir()], the colours of [picocolors], the [agents] catalogue
    ([agents[a].displayName] and [Object.keys(agents)]) and
    [JSON.stringify(summary, null, 2)]. *)
Record Host : Type := {
  homedir : string;
  pc_dim : string -> string;
  pc_yellow : string -> string;
  pc_red : string -> string;
  pc_cyan : string -> string;
  pc_green : string -> string;
  pc_bold : string -> string;
  displayName : AgentType -> string;
  agentKeys : list string;
  JSON_stringify : VerifySummary -> string
}.

(** A number inside a template literal, and [String(n)]. *)
Definition numberToString (n : nat) : string :=
  NilZero.string_of_uint (Nat.to_uint n).

(** [s.slice(n)] *)
Fixpoint slice_from (n : nat) (s : string) : string :=
  match n, s with
  | 0, _ => s
  | S _, EmptyString => EmptyString
  | S n', String _ s' => slice_from n' s'
  end.

(** [s.replace(pattern, replacement)] for a string pattern and a replacement
    without [$]: the first occurrence is replaced. *)
Definition String_replace (s pattern replacement : string) : string :=
  match String.index 0 pattern s with
  | Some i =>
      substring 0 i s ++ replacement ++ slice_from (i + String.length pattern) s
  | None => s
  end.

(** [parts.join(', ')] *)
Definition join_comma (parts : list string) : string := String.concat ", " parts.

Definition newline : string := String (ascii_of_nat 10) EmptyString.

Definition shortenPath (h : Host) (fullPath cwd : string) : string :=
  let home := homedir h in
  if String.prefix home fullPath then String_replace fullPath home "~"
  else if String.prefix cwd fullPath then "." ++ slice_from (String.length cwd) fullPath
  else fullPath.

(** [summary.scope === 'global' ? 'global' : 'project'] *)
Definition scopeLabel (summary : VerifySummary) : string :=
  match scope summary with
  | global => "global"
  | project => "project"
  end.

(** A status inside a template literal. *)
Definition statusText (s : VerifyStatus) : string :=
  match s with
  | ok => "ok"
  | modified => "modified"
  | missing => "missing"
  | untracked => "untracked"
  | invalid => "invalid"
  end.

(** An optional string inside a template literal. *)
Definition templateText (s : option string) : string :=
  match s with
  | Some e => e
  | None => "undefined"
  end.

Definition isNil {A : Type} (l : list A) : bool :=
  match l with
  | [] => true
  | _ :: _ => false
  end.

(** [if (n > 0) parts.push(text)] *)
Definition partIf (n : nat) (text : string) : list string :=
  if 0 <? n then [text] else [].

(** Lines 301-327: the lines one result adds to the standard output. *)
Definition standardResultLines (h : Host) (cwd : string) (result : VerifyResult)
    : list string :=
  if VerifyStatus_eqb (status result) ok && isNil (brokenSymlinks result) then []
  else
    (match status result with
     | modified =>
         ["  " ++ pc_yellow h (name result) ++ " " ++ pc_dim h "(modified - hash mismatch)"]
     | missing =>
         ["  " ++ pc_red h (name result) ++ " "
          ++ pc_dim h "(missing - in lock file but not on disk)"]
     | untracked =>
         ["  " ++ pc_cyan h (name result) ++ " " ++ pc_dim h "(untracked - not in lock file)"]
     | invalid =>
         ["  " ++ pc_red h (name result) ++ " "
          ++ pc_dim h ("(invalid - " ++ templateText (error result) ++ ")")]
     | ok => []
     end
     +++ map (fun broken =>
               "    " ++ pc_red h "broken symlink:" ++ " " ++ shortenPath h (link broken) cwd)
            (brokenSymlinks result)).

(** Lines 331-350: [parts] of the standard output. *)
Definition standardSummaryParts (h : Host) (c : Counts.t) : list string :=
  (partIf (Counts.ok c) (pc_green h (numberToString (Counts.ok c) ++ " verified"))
   +++ partIf (Counts.modified c)
        (pc_yellow h (numberToString (Counts.modified c) ++ " modified"))
   +++ partIf (Counts.missing c) (pc_red h (numberToString (Counts.missing c) ++ " missing"))
   +++ partIf (Counts.untracked c)
        (pc_cyan h (numberToString (Counts.untracked c) ++ " untracked"))
   +++ partIf (Counts.invalid c) (pc_red h (numberToString (Counts.invalid c) ++ " invalid"))
   +++ partIf (Counts.brokenSymlinks c)
        (pc_red h (numberToString (Counts.brokenSymlinks c) ++ " broken symlinks"))).

(** [hasIssues] of [formatStandardOutput] (lines 293-298). *)
Definition hasIssuesShown (c : Counts.t) : bool :=
  (0 <? Counts.modified c) || (0 <? Counts.missing c) || (0 <? Counts.untracked c)
  || (0 <? Counts.invalid c) || (0 <? Counts.brokenSymlinks c).

(** The calls of [console.log], one string each, in order; [console.log()]
    is the empty string. *)
Definition formatStandardOutput (h : Host) (summary : VerifySummary) (cwd : string)
    : list string :=
  let header := "Verifying " ++ scopeLabel summary ++ " skills..." ++ newline in
  if List.length (results summary) =? 0 then
    [header; pc_dim h ("No " ++ scopeLabel summary ++ " skills found.")]
  else
    let hasIssues := hasIssuesShown (counts summary) in
    let parts := standardSummaryParts h (counts summary) in
    ([header]
     +++ flat_map (standardResultLines h cwd) (results summary)
     +++ [""]
     +++ (if 0 <? List.length parts then ["Summary: " ++ join_comma parts] else [])
     +++ (if negb hasIssues && (0 <? List.length (results summary))
         then [pc_green h ("All " ++ numberToString (List.length (results summary))
                           ++ " skills verified successfully.")]
         else [])).

(** The check mark and the cross, U+2713 and U+2717, in UTF-8. *)
Definition checkMark : string :=
  String (ascii_of_nat 226) (String (ascii_of_nat 156) (String (ascii_of_nat 147) EmptyString)).
Definition crossMark : string :=
  String (ascii_of_nat 226) (String (ascii_of_nat 156) (String (ascii_of_nat 151) EmptyString)).

(** [a === b] for an optional string on each side. *)
Definition strict_eq (a b : option string) : bool :=
  match a, b with
  | Some x, Some y => String.eqb x y
  | None, None => true
  | _, _ => false
  end.

(** Lines 370-410: the lines one result adds to the verbose output. *)
Definition verboseResultLines (h : Host) (cwd : string) (result : VerifyResult)
    : list string :=
  let shortPath :=
    if String.eqb (path result) "" then "N/A" else shortenPath h (path result) cwd in
  let clean := VerifyStatus_eqb (status result) ok && isNil (brokenSymlinks result) in
  let statusIcon := if clean then pc_green h checkMark else pc_red h crossMark in
  ([statusIcon ++ " " ++ pc_bold h (name result);
    "    Path: " ++ pc_dim h shortPath]
   +++ (if negb (VerifyStatus_eqb (status result) ok)
       then ["    Status: " ++ pc_yellow h (statusText (status result))]
       else [])
   +++ (if truthy (expectedHash result) then
         let hashMatch := strict_eq (expectedHash result) (actualHash result) in
         ["    Hash: " ++ (if hashMatch then pc_green h "matches" else pc_yellow h "mismatch")]
         +++ (if negb hashMatch && truthy (actualHash result) then
               ["      Expected: "
                ++ pc_dim h (substring 0 16 (templateText (expectedHash result))) ++ "...";
                "      Actual:   "
                ++ pc_dim h (substring 0 16 (templateText (actualHash result))) ++ "..."]
             else [])
       else [])
   +++ (if 0 <? List.length (agents result)
       then ["    Agents: " ++ join_comma (map (displayName h) (agents result))]
       else [])
   +++ map (fun broken =>
             "    " ++ pc_red h "Broken symlink:" ++ " " ++ shortenPath h (link broken) cwd
             ++ " (" ++ displayName h (agent broken) ++ ")")
          (brokenSymlinks result)
   +++ (if truthy (error result) && negb (VerifyStatus_eqb (status result) ok)
       then ["    Error: " ++ pc_dim h (templateText (error result))]
       else [])
   +++ [""]).

(** Lines 413-420: [parts] of the verbose output. *)
Definition verboseSummaryParts (c : Counts.t) : list string :=
  (partIf (Counts.ok c) (numberToString (Counts.ok c) ++ " ok")
   +++ partIf (Counts.modified c) (numberToString (Counts.modified c) ++ " modified")
   +++ partIf (Counts.missing c) (numberToString (Counts.missing c) ++ " missing")
   +++ partIf (Counts.untracked c) (numberToString (Counts.untracked c) ++ " untracked")
   +++ partIf (Counts.invalid c) (numberToString (Counts.invalid c) ++ " invalid")
   +++ partIf (Counts.brokenSymlinks c)
        (numberToString (Counts.brokenSymlinks c) ++ " broken symlinks")).

Definition formatVerboseOutput (h : Host) (summary : VerifySummary) (cwd : string)
    : list string :=
  let header := "Verifying " ++ scopeLabel summary ++ " skills..." ++ newline in
  if List.length (results summary) =? 0 then
    [header; pc_dim h ("No " ++ scopeLabel summary ++ " skills found.")]
  else
    ([header]
     +++ flat_map (verboseResultLines h cwd) (results summary)
     +++ ["Summary: " ++ join_comma (verboseSummaryParts (counts summary))]).

Definition formatJsonOutput (h : Host) (summary : VerifySummary) : list string :=
  [JSON_stringify h summary].

(** ** [runVerify] (verify.ts, lines 429-486) *)

(** The event handed to [track]. *)
Record VerifyEvent : Type := {
  event : string;
  ev_scope : string;
  skillCount : string;
  okCount : string;
  modifiedCount : string;
  missingCount : string;
  untrackedCount : string;
  invalidCount : string;
  brokenSymlinksCount : string
}.

(** What a run does to the outside: the lines logged, the event tracked, and
    the code of [process.exit] ([None] when [runVerify] returns). *)
Record RunOutcome : Type := {
  stdout : list string;
  tracked : option VerifyEvent;
  exitCode : option nat
}.

(** [hasIssues] of [runVerify] (lines 477-481). *)
Definition hasIssuesExit (c : Counts.t) : bool :=
  (0 <? Counts.modified c) || (0 <? Counts.missing c)
  || (0 <? Counts.invalid c) || (0 <? Counts.brokenSymlinks c).

(** Lines 434-446: [Some invalidAgents] when the run stops on agent names
    that are not in the catalogue, otherwise [agentFilter]. *)
Definition validateAgents (h : Host) (options : VerifyOptions.t)
    : list string + option (list AgentType) :=
  match VerifyOptions.agent options with
  | Some (a :: l) =>
      let validAgents := agentKeys h in
      let invalidAgents := filter (fun a => negb (includes validAgents a)) (a :: l) in
      if 0 <? List.length invalidAgents then inl invalidAgents else inr (Some (a :: l))
  | _ => inr None
  end.

Definition runVerify (h : Host) (w : World) (args : list string) : RunOutcome :=
  let options := parseVerifyOptions args in
  let cwd := process_cwd w in
  match validateAgents h options with
  | inl invalidAgents =>
      {| stdout :=
           [pc_yellow h ("Invalid agents: " ++ join_comma invalidAgents);
            pc_dim h ("Valid agents: " ++ join_comma (agentKeys h))];
         tracked := None;
         exitCode := Some 1 |}
  | inr agentFilter =>
      let summary :=
        verifySkills w
          {| Options.global := VerifyOptions.global options;
             Options.cwd := Some cwd;
             Options.agentFilter := agentFilter |} in
      {| stdout :=
           if nullish_false (VerifyOptions.json options) then formatJsonOutput h summary
           else if nullish_false (VerifyOptions.verbose options)
                then formatVerboseOutput h summary cwd
                else formatStandardOutput h summary cwd;
         tracked :=
           Some {| event := "verify";
                   ev_scope := scopeLabel summary;
                   skillCount := numberToString (List.length (results summary));
                   okCount := numberToString (Counts.ok (counts summary));
                   modifiedCount := numberToString (Counts.modified (counts summary));
                   missingCount := numberToString (Counts.missing (counts summary));
                   untrackedCount := numberToString (Counts.untracked (counts summary));
                   invalidCount := numberToString (Counts.invalid (counts summary));
                   brokenSymlinksCount :=
                     numberToString (Counts.brokenSymlinks (counts summary)) |};
         exitCode := if hasIssuesExit (counts summary) then Some 1 else None |}
  end.

(** A host for examples: the colours leave the text as it is. *)
Definition plainHost : Host :=
  {| homedir := "/home/al";
     pc_dim := fun s => s;
     pc_yellow := fun s => s;
     pc_red := fun s => s;
     pc_cyan := fun s => s;
     pc_green := fun s => s;
     pc_bold := fun s => s;
     displayName := fun a => a;
     agentKeys := ["claude-code"; "cursor"; "universal"];
     JSON_stringify := fun summary => "{" ++ scopeLabel summary ++ "}" |}.

(** ** Definitions the further statements use *)

(** The finding [checkSymlinkIntegrity] pushes for an agent. *)
Definition findingFor (w : World) (skillName : string) (options : SymlinkOptions.t)
    (a : AgentType) : BrokenSymlink :=
  {| agent := a;
     link :=
       join w
         (getAgentBaseDir w a (nullish_false (SymlinkOptions.global options))
            (or_else (SymlinkOptions.cwd options) (process_cwd w)))
         skillName |}.

(** A finding of a result of [verifySkills] is backed by the disk: it names
    an agent that was detected and that the filter admits, its link is the
    agent's path for the skill, a symbolic link that resolves to something
    else than the result's path. *)
Definition findingBacked (w : World) (options : Options.t) (r : VerifyResult)
    (b : BrokenSymlink) : Prop :=
  In (agent b) (detectInstalledAgents w)
  /\ (forall f, Options.agentFilter options = Some f -> In (agent b) f)
  /\ link b
     = join w (getAgentBaseDir w (agent b) (isGlobalOf options) (cwdOf w options)) (name r)
  /\ lstat w (link b) = Some SymbolicLink
  /\ exists target,
       readlink w (link b) = Some target
       /\ resolve w (dirname w (link b)) target <> path r.

(** Where the path and the agents of a result come from. *)
Definition resultProvenance (w : World) (options : Options.t) (r : VerifyResult) : Prop :=
  match status r with
  | missing => path r = "" /\ agents r = []
  | _ =>
      exists s,
        In s (installedSkillsOf w options)
        /\ InstalledSkill.name s = name r
        /\ path r = InstalledSkill.canonicalPath s
        /\ agents r = InstalledSkill.agents s
  end.

(** What the hash fields of a result say, by status. *)
Definition hashesJustifyStatus (options : Options.t) (r : VerifyResult) : Prop :=
  match status r with
  | modified =>
      isGlobalOf options = false
      /\ exists expected actual,
           expectedHash r = Some expected /\ actualHash r = Some actual
           /\ expected <> "" /\ actual <> expected
  | ok =>
      if isGlobalOf options then expectedHash r = None /\ actualHash r = None
      else exists actual,
             actualHash r = Some actual
             /\ (expectedHash r = Some actual \/ truthy (expectedHash r) = false)
  | missing | untracked => expectedHash r = None /\ actualHash r = None
  | invalid => actualHash r = None
  end.

(** Project options with an agent filter that is an empty array. *)
Definition emptyFilterOptions : Options.t :=
  {| Options.global := None; Options.cwd := None; Options.agentFilter := Some [] |}.


(** A result that makes [runVerify] exit with code 1, and one that does not. *)
Definition failsRun (r : VerifyResult) : Prop :=
  status r = modified \/ status r = missing \/ status r = invalid
  \/ brokenSymlinks r <> [].

Definition passesRun (r : VerifyResult) : Prop :=
  (status r = ok \/ status r = untracked) /\ brokenSymlinks r = [].

(** The options [runVerify] hands to [verifySkills]. *)
Definition runOptions (w : World) (args : list string)
    (agentFilter : option (list AgentType)) : Options.t :=
  {| Options.global := VerifyOptions.global (parseVerifyOptions args);
     Options.cwd := Some (process_cwd w);
     Options.agentFilter := agentFilter |}.

(** The first line of the standard and of the verbose output. *)
Definition headerLine (summary : VerifySummary) : string :=
  "Verifying " ++ scopeLabel summary ++ " skills..." ++ newline.

(** ** Insertion-ordered maps *)

Module JsMapFacts.
Import JsMap.
Section WithValues.
Context {V : Type}.
Implicit Types (m : JsMap.t V) (k : string) (v : V).

Lemma get_None_iff k m : get k m = None <-> ~ In k (keys m).
Proof.
      induction m as [|[k' v'] m IH]; simpl.
      - tauto.
      - destruct (String.eqb_spec k k') as [->|Hne].
        + split; [discriminate | intros H; exfalso; apply H; now left].
        + rewrite IH. split.
          * intros H [E|I]; [congruence | tauto].
          * tauto.
Qed.

Lemma get_Some_In k v m : get k m = Some v -> In (k, v) m.
Proof.
      induction m as [|[k' v'] m IH]; simpl; [discriminate|].
      destruct (String.eqb_spec k k') as [->|Hne].
      - intros [= ->]. now left.
      - intros H. right. now apply IH.
Qed.

Lemma get_delete_ne k k' m : k <> k' -> get k (delete k' m) = get k m.
Proof.
      intros Hne. induction m as [|[k0 v0] m IH]; simpl; [reflexivity|].
      destruct (String.eqb_spec k' k0) as [->|Hne'].
      - destruct (String.eqb_spec k k0); [contradiction | reflexivity].
      - simpl. now rewrite IH.
Qed.

Lemma delete_absent k m : get k m = None -> delete k m = m.
Proof.
      induction m as [|[k0 v0] m IH]; simpl; [reflexivity|].
      destruct (String.eqb_spec k k0); [discriminate|].
      intros H. now rewrite IH.
Qed.

Lemma In_keys_delete_weak k k' m : In k (keys (delete k' m)) -> In k (keys m).
Proof.
      induction m as [|[k0 v0] m IH]; simpl; [tauto|].
      destruct (String.eqb_spec k' k0); simpl; tauto.
Qed.

Lemma In_keys_delete k k' m :
      NoDup (keys m) -> In k (keys (delete k' m)) <-> In k (keys m) /\ k <> k'.
Proof.
      induction m as [|[k0 v0] m IH]; simpl; [tauto|].
      intros Hnd. inversion Hnd as [|? ? Hnotin Hnd']; subst.
      destruct (String.eqb_spec k' k0) as [->|Hne]; simpl.
      - split.
        + intros Hin. split; [now right|]. intros ->. contradiction.
        + intros [[E|Hin] Hk]; [congruence | assumption].
      - rewrite (IH Hnd'). split.
        + intros [E|[Hin Hk]]; [subst; split; [now left | congruence] | tauto].
        + intros [[E|Hin] Hk]; tauto.
Qed.

Lemma NoDup_keys_delete k m : NoDup (keys m) -> NoDup (keys (delete k m)).
Proof.
      induction m as [|[k0 v0] m IH]; simpl; [trivial|].
      intros Hnd. inversion Hnd as [|? ? Hnotin Hnd']; subst.
      destruct (String.eqb_spec k k0); [assumption|].
      simpl. constructor; [|now apply IH].
      intros Hin. apply Hnotin. eapply In_keys_delete_weak, Hin.
Qed.

Lemma In_keys_set k' k v m : In k' (keys (set k v m)) <-> k' = k \/ In k' (keys m).
Proof.
      induction m as [|[k0 v0] m IH]; simpl.
      - intuition congruence.
      - destruct (String.eqb_spec k k0) as [->|Hne]; simpl.
        + intuition congruence.
        + rewrite IH. intuition congruence.
Qed.

Lemma NoDup_keys_set k v m : NoDup (keys m) -> NoDup (keys (set k v m)).
Proof.
      induction m as [|[k0 v0] m IH]; simpl.
      - intros _. constructor; [simpl; tauto | constructor].
      - intros Hnd. inversion Hnd as [|? ? Hnotin Hnd']; subst.
        destruct (String.eqb_spec k k0) as [->|Hne]; simpl.
        + now constructor.
        + constructor; [|now apply IH].
          rewrite In_keys_set. intros [E|Hin]; [congruence | contradiction].
Qed.

Lemma get_set_eq k v m : get k (set k v m) = Some v.
Proof.
      induction m as [|[k0 v0] m IH]; simpl.
      - now rewrite String.eqb_refl.
      - destruct (String.eqb_spec k k0) as [->|Hne]; simpl.
        + now rewrite String.eqb_refl.
        + destruct (String.eqb_spec k k0); [contradiction | assumption].
Qed.

Lemma get_set_ne k k' v m : k' <> k -> get k' (set k v m) = get k' m.
Proof.
      intros Hne. induction m as [|[k0 v0] m IH]; simpl.
      - destruct (String.eqb_spec k' k); [contradiction | reflexivity].
      - destruct (String.eqb_spec k k0) as [->|Hne0]; simpl.
        + destruct (String.eqb_spec k' k0); [contradiction | reflexivity].
        + now rewrite IH.
Qed.
End WithValues.
End JsMapFacts.


(** ** The symlink integrity checker *)

Local Open Scope list_scope.

Section Checker.
Variable w : World.
Variables skillName canonicalPath : string.
Variable options : SymlinkOptions.t.

Let isGlobal := nullish_false (SymlinkOptions.global options).
Let cwd := or_else (SymlinkOptions.cwd options) (process_cwd w).

Local Abbreviation findings := (findingsOf w skillName canonicalPath options).

Lemma checkAgent_app acc a :
  checkAgent w skillName canonicalPath options cwd acc a = acc ++ findings a.
Proof.
  unfold findingsOf, checkAgent, push. fold cwd.
  destruct (String.eqb _ _); [now rewrite app_nil_r|].
  destruct (lstat w _) as [st|]; [|now rewrite app_nil_r].
  destruct (isSymbolicLink st); [|now rewrite app_nil_r].
  destruct (readlink w _) as [target|]; [|now rewrite app_nil_r].
  destruct (negb _); [reflexivity | now rewrite app_nil_r].
Qed.

Lemma fold_checkAgent agentsToCheck acc :
  fold_left (checkAgent w skillName canonicalPath options cwd) agentsToCheck acc
  = acc ++ flat_map findings agentsToCheck.
Proof.
  revert acc. induction agentsToCheck as [|a l IH]; intros acc; simpl.
  - now rewrite app_nil_r.
  - rewrite IH, checkAgent_app, <- app_assoc. reflexivity.
Qed.

Lemma checkSymlinkIntegrity_flat_map agentsToCheck :
  checkSymlinkIntegrity w skillName canonicalPath agentsToCheck options
  = flat_map findings agentsToCheck.
Proof.
  unfold checkSymlinkIntegrity. fold cwd. now rewrite fold_checkAgent.
Qed.

Lemma In_findingsOf b a :
  In b (findings a) <->
    agent b = a /\
    getAgentBaseDir w a isGlobal cwd <> getCanonicalSkillsDir w isGlobal cwd /\
    link b = join w (getAgentBaseDir w a isGlobal cwd) skillName /\
    lstat w (link b) = Some SymbolicLink /\
    exists target,
      readlink w (link b) = Some target /\
      resolve w (dirname w (link b)) target <> canonicalPath.
Proof.
  unfold findingsOf, checkAgent, push. fold isGlobal. fold cwd.
  set (agentDir := getAgentBaseDir w a isGlobal cwd).
  set (skillLink := join w agentDir skillName).
  destruct (String.eqb_spec agentDir (getCanonicalSkillsDir w isGlobal cwd)) as [E|NE].
  { simpl. split; [tauto|]. intros (_ & H & _). contradiction. }
  destruct (lstat w skillLink) as [st|] eqn:Hst.
  2:{ simpl. split; [tauto|]. intros (_ & _ & Hl & H & _). rewrite Hl in H. congruence. }
  destruct st; simpl;
    try (split; [tauto|]; intros (_ & _ & Hl & H & _); rewrite Hl in H; congruence).
  destruct (readlink w skillLink) as [target|] eqn:Hrl.
  2:{ simpl. split; [tauto|].
      intros (_ & _ & Hl & _ & t & H & _). rewrite Hl in H. congruence. }
  destruct (String.eqb_spec (resolve w (dirname w skillLink) target) canonicalPath)
    as [E|NE']; simpl.
  - split; [tauto|].
    intros (_ & _ & Hl & _ & t & H & Hne). rewrite Hl in H, Hne.
    rewrite Hrl in H. injection H as <-. contradiction.
  - split.
    + intros [<-|[]]. simpl. repeat split; try assumption.
      exists target. split; assumption.
    + intros (Ha & _ & Hl & _). left. destruct b as [ba bl]. simpl in *. congruence.
Qed.
End Checker.

(** C7.  [checkSymlinkIntegrity] reports [{agent, link}] for exactly the
    agents to check that are not skipped (base directory other than the
    canonical store's) and whose link path [baseDir/skillName] is a symbolic
    link that [readlink] resolves, relative to the link's directory, to a
    path other than [canonicalPath].  A finding never has a link path that is
    absent ([lstat] rejects) or one that is a plain directory. *)
Theorem checkSymlinkIntegrity_reports_exactly :
  forall (w : World) (skillName canonicalPath : string)
         (agentsToCheck : list AgentType) (options : SymlinkOptions.t),
    let isGlobal := nullish_false (SymlinkOptions.global options) in
    let cwd := or_else (SymlinkOptions.cwd options) (process_cwd w) in
    let found := checkSymlinkIntegrity w skillName canonicalPath agentsToCheck options in
    (forall b : BrokenSymlink,
        In b found <->
          In (agent b) agentsToCheck /\
          getAgentBaseDir w (agent b) isGlobal cwd <> getCanonicalSkillsDir w isGlobal cwd /\
          link b = join w (getAgentBaseDir w (agent b) isGlobal cwd) skillName /\
          lstat w (link b) = Some SymbolicLink /\
          exists target,
            readlink w (link b) = Some target /\
            resolve w (dirname w (link b)) target <> canonicalPath)
    /\ (forall b, In b found -> lstat w (link b) <> None)
    /\ (forall b, In b found -> lstat w (link b) <> Some Directory).
Proof.
  intros w skillName canonicalPath agentsToCheck options isGlobal cwd found.
  assert (Hiff : forall b, In b found <->
            In (agent b) agentsToCheck /\
            getAgentBaseDir w (agent b) isGlobal cwd <> getCanonicalSkillsDir w isGlobal cwd /\
            link b = join w (getAgentBaseDir w (agent b) isGlobal cwd) skillName /\
            lstat w (link b) = Some SymbolicLink /\
            exists target,
              readlink w (link b) = Some target /\
              resolve w (dirname w (link b)) target <> canonicalPath).
  { intros b. subst found. rewrite checkSymlinkIntegrity_flat_map, in_flat_map.
    split.
    - intros (a & Ha & Hb). apply In_findingsOf in Hb.
      destruct Hb as (Hag & Hrest). subst a. split; assumption.
    - intros (Ha & Hrest). exists (agent b). split; [assumption|].
      apply In_findingsOf. split; [reflexivity | assumption]. }
  split; [exact Hiff|]. split.
  - intros b Hb. apply Hiff in Hb. destruct Hb as (_ & _ & _ & H & _). congruence.
  - intros b Hb. apply Hiff in Hb. destruct Hb as (_ & _ & _ & H & _). congruence.
Qed.

(** C6.  An agent whose base directory for the scope is the canonical store
    directory is skipped: no finding names it, and the findings are those of
    the run without that agent, whatever [lstat] and [readlink] answer at its
    link path. *)
Theorem checkSymlinkIntegrity_skips_canonical_agent :
  forall (w : World) (skillName canonicalPath : string)
         (agentsToCheck : list AgentType) (options : SymlinkOptions.t)
         (a : AgentType),
    let isGlobal := nullish_false (SymlinkOptions.global options) in
    let cwd := or_else (SymlinkOptions.cwd options) (process_cwd w) in
    getAgentBaseDir w a isGlobal cwd = getCanonicalSkillsDir w isGlobal cwd ->
    (forall b, In b (checkSymlinkIntegrity w skillName canonicalPath agentsToCheck options) ->
               agent b <> a)
    /\ checkSymlinkIntegrity w skillName canonicalPath agentsToCheck options
       = checkSymlinkIntegrity w skillName canonicalPath
           (filter (fun x => negb (String.eqb x a)) agentsToCheck) options.
Proof.
  intros w skillName canonicalPath agentsToCheck options a isGlobal cwd Hskip.
  assert (Hnone : findingsOf w skillName canonicalPath options a = []).
  { unfold findingsOf, checkAgent. fold isGlobal. fold cwd.
    rewrite Hskip, String.eqb_refl. reflexivity. }
  split.
  - intros b Hb Hab.
    rewrite checkSymlinkIntegrity_flat_map, in_flat_map in Hb.
    destruct Hb as (x & _ & Hx). apply In_findingsOf in Hx.
    destruct Hx as (Hag & Hne & _). apply Hne.
    rewrite <- Hag, Hab. exact Hskip.
  - rewrite !checkSymlinkIntegrity_flat_map.
    induction agentsToCheck as [|x l IH]; simpl; [reflexivity|].
    destruct (String.eqb_spec x a) as [->|Hne]; simpl.
    + rewrite Hnone. exact IH.
    + now rewrite IH.
Qed.

Example checkSymlinkIntegrity_scenario_E_F :
  checkSymlinkIntegrity scenarioLinks "x" "/proj/.agents/skills/x"
    ["universal"; "cursor"; "claude"; "windsurf"] scenarioSymlinkOptions
  = [{| agent := "cursor"; link := "/proj/.cursor/skills/x" |}].
Proof. reflexivity. Qed.

Lemma checkSymlinkIntegrity_skips_canonical_agent_witness :
  (forall b,
      In b (checkSymlinkIntegrity scenarioLinks "x" "/proj/.agents/skills/x"
              ["universal"; "cursor"] scenarioSymlinkOptions) ->
      agent b <> "universal")
  /\ checkSymlinkIntegrity scenarioLinks "x" "/proj/.agents/skills/x"
       ["universal"; "cursor"] scenarioSymlinkOptions
     = checkSymlinkIntegrity scenarioLinks "x" "/proj/.agents/skills/x"
         (filter (fun x => negb (String.eqb x "universal")) ["universal"; "cursor"])
         scenarioSymlinkOptions.
Proof.
  apply (checkSymlinkIntegrity_skips_canonical_agent scenarioLinks "x"
           "/proj/.agents/skills/x" ["universal"; "cursor"] scenarioSymlinkOptions
           "universal").
  reflexivity.
Defined.

(** ** Folds, sorting and tallies *)

Lemma fold_left_invariant {S E : Type} (P : S -> Prop) (step : S -> E -> S) :
  (forall st e, P st -> P (step st e)) ->
  forall l st, P st -> P (fold_left step l st).
Proof.
  intros Hstep l. induction l as [|e l IH]; intros st Hst; simpl; [assumption|].
  apply IH, Hstep, Hst.
Qed.

Lemma sort_insert_perm {A : Type} (cmp : A -> A -> Z) x l :
  Permutation (sort_insert cmp x l) (x :: l).
Proof.
  induction l as [|y l IH]; simpl; [reflexivity|].
  destruct (cmp x y <=? 0)%Z; [reflexivity|].
  rewrite IH. apply perm_swap.
Qed.

Lemma Array_sort_perm {A : Type} (cmp : A -> A -> Z) l :
  Permutation (Array_sort cmp l) l.
Proof.
  induction l as [|x l IH]; simpl; [reflexivity|].
  rewrite sort_insert_perm. now constructor.
Qed.

Lemma tally_push s rs r :
  tally s (push rs r) = tally s rs + (if VerifyStatus_eqb (status r) s then 1 else 0).
Proof.
  unfold tally, push. rewrite filter_app, length_app. simpl.
  destruct (VerifyStatus_eqb (status r) s); reflexivity.
Qed.

Lemma totalBrokenSymlinks_push rs r :
  totalBrokenSymlinks (push rs r)
  = totalBrokenSymlinks rs + List.length (brokenSymlinks r).
Proof.
  unfold totalBrokenSymlinks, push. rewrite map_app, list_sum_app. simpl. lia.
Qed.

Lemma tally_perm s rs rs' : Permutation rs rs' -> tally s rs = tally s rs'.
Proof.
  unfold tally. induction 1 as [|x l l' _ IH|x y l|l l' l'' _ IH1 _ IH2]; simpl.
  - reflexivity.
  - destruct (VerifyStatus_eqb (status x) s); simpl; now rewrite IH.
  - destruct (VerifyStatus_eqb (status x) s), (VerifyStatus_eqb (status y) s); reflexivity.
  - now rewrite IH1.
Qed.

Lemma totalBrokenSymlinks_perm rs rs' :
  Permutation rs rs' -> totalBrokenSymlinks rs = totalBrokenSymlinks rs'.
Proof.
  unfold totalBrokenSymlinks.
  induction 1 as [|x l l' _ IH|x y l|l l' l'' _ IH1 _ IH2]; simpl; lia.
Qed.

Lemma tally_total rs :
  tally ok rs + tally modified rs + tally missing rs + tally untracked rs
  + tally invalid rs = List.length rs.
Proof.
  unfold tally. induction rs as [|r rs IH]; simpl; [reflexivity|].
  destruct (status r); simpl; lia.
Qed.

Lemma countsTally_perm c rs rs' :
  Permutation rs rs' -> countsTally c rs -> countsTally c rs'.
Proof.
  intros Hp (H1 & H2 & H3 & H4 & H5 & H6). unfold countsTally.
  rewrite <- !(tally_perm _ _ _ Hp), <- (totalBrokenSymlinks_perm _ _ Hp). tauto.
Qed.

(** ** The counters follow the results *)

Section CountsInvariant.
Variable w : World.
Variable isGlobal : bool.
Variable cwd : string.
Variable agentsToCheck : list AgentType.

Lemma lockedStep_tally st entry :
  stateTally st -> stateTally (lockedStep w isGlobal cwd agentsToCheck st entry).
Proof.
  unfold stateTally, countsTally. intros (H1 & H2 & H3 & H4 & H5 & H6).
  destruct entry as [skillName lockEntry]. unfold lockedStep.
  destruct (JsMap.get skillName (st_installedMap st)) as [installed|].
  2:{ simpl. rewrite !tally_push, totalBrokenSymlinks_push. simpl. lia. }
  destruct (parseSkillMd w _).
  2:{ simpl. rewrite !tally_push, totalBrokenSymlinks_push. simpl. lia. }
  destruct isGlobal; simpl.
  { rewrite !tally_push, totalBrokenSymlinks_push. simpl. lia. }
  destruct (computeSkillFolderHash w _) as [actual|message].
  2:{ simpl. rewrite !tally_push, totalBrokenSymlinks_push. simpl. lia. }
  destruct (truthy (computedHash lockEntry) && strict_neq actual (computedHash lockEntry));
    simpl; rewrite !tally_push, totalBrokenSymlinks_push; simpl; lia.
Qed.

Lemma untrackedStep_tally st entry :
  stateTally st -> stateTally (untrackedStep w isGlobal cwd agentsToCheck st entry).
Proof.
  unfold stateTally, countsTally. intros (H1 & H2 & H3 & H4 & H5 & H6).
  destruct entry as [skillName installed]. unfold untrackedStep. simpl.
  rewrite !tally_push, totalBrokenSymlinks_push. simpl. lia.
Qed.
End CountsInvariant.

Lemma verifyLoops_tally w options : stateTally (verifyLoops w options).
Proof.
  unfold verifyLoops.
  apply fold_left_invariant; [intros; now apply untrackedStep_tally|].
  apply fold_left_invariant; [intros; now apply lockedStep_tally|].
  unfold stateTally, countsTally, tally, totalBrokenSymlinks. simpl. tauto.
Qed.

(** C4.  In the summary [verifySkills] returns, each of the five status
    counters is the number of results with that status, the five add up to
    [results.length], and [counts.brokenSymlinks] is the total length of the
    [brokenSymlinks] arrays of all results. *)
Theorem verifySkills_counts_tally_results :
  forall (w : World) (options : Options.t),
    let summary := verifySkills w options in
    let c := counts summary in
    Counts.ok c + Counts.modified c + Counts.missing c + Counts.untracked c
    + Counts.invalid c = List.length (results summary)
    /\ Counts.ok c = tally ok (results summary)
    /\ Counts.modified c = tally modified (results summary)
    /\ Counts.missing c = tally missing (results summary)
    /\ Counts.untracked c = tally untracked (results summary)
    /\ Counts.invalid c = tally invalid (results summary)
    /\ Counts.brokenSymlinks c
       = list_sum (map (fun r => List.length (brokenSymlinks r)) (results summary)).
Proof.
  intros w options summary c.
  assert (H : countsTally c (results summary)).
  { subst c summary. unfold verifySkills. simpl.
    eapply countsTally_perm; [|apply verifyLoops_tally].
    symmetry. apply Array_sort_perm. }
  destruct H as (H1 & H2 & H3 & H4 & H5 & H6).
  repeat split; try assumption.
  rewrite H1, H2, H3, H4, H5. apply tally_total.
Qed.

(** ** What the two loops push *)

Section Loops.
Variable w : World.
Variable isGlobal : bool.
Variable cwd : string.
Variable agentsToCheck : list AgentType.

Local Abbreviation step1 := (lockedStep w isGlobal cwd agentsToCheck).
Local Abbreviation step2 := (untrackedStep w isGlobal cwd agentsToCheck).
Local Abbreviation result1 := (lockedResult w isGlobal cwd agentsToCheck).
Local Abbreviation result2 := (untrackedResult w isGlobal cwd agentsToCheck).

Lemma lockedStep_results st entry :
  st_results (step1 st entry)
  = push (st_results st) (result1 (JsMap.get (fst entry) (st_installedMap st)) entry).
Proof.
  destruct entry as [skillName lockEntry]. unfold lockedStep, lockedResult. simpl.
  destruct (JsMap.get skillName (st_installedMap st)) as [installed|]; [|reflexivity].
  destruct (parseSkillMd w _); [|reflexivity].
  destruct isGlobal; simpl; [reflexivity|].
  destruct (computeSkillFolderHash w _) as [actual|message]; [|reflexivity].
  destruct (truthy _ && strict_neq _ _); reflexivity.
Qed.

Lemma lockedStep_installedMap st entry :
  st_installedMap (step1 st entry) = JsMap.delete (fst entry) (st_installedMap st).
Proof.
  destruct entry as [skillName lockEntry]. unfold lockedStep. simpl.
  destruct (JsMap.get skillName (st_installedMap st)) as [installed|] eqn:Hget.
  - destruct (parseSkillMd w _); [|reflexivity].
    destruct (if negb isGlobal then _ else _) as [[[s1 e1] a1] c1]. reflexivity.
  - simpl. symmetry. now apply JsMapFacts.delete_absent.
Qed.

Lemma fold_lockedStep_installedMap entries st :
  st_installedMap (fold_left step1 entries st) = deleteAll entries (st_installedMap st).
Proof.
  revert st. induction entries as [|e l IH]; intros st; simpl; [reflexivity|].
  rewrite IH, lockedStep_installedMap. reflexivity.
Qed.

Lemma fold_lockedStep_results entries st :
  NoDup (map fst entries) ->
  st_results (fold_left step1 entries st)
  = st_results st
    ++ map (fun e => result1 (JsMap.get (fst e) (st_installedMap st)) e) entries.
Proof.
  revert st. induction entries as [|e l IH]; intros st Hnd; simpl.
  - now rewrite app_nil_r.
  - inversion Hnd as [|? ? Hnotin Hnd']; subst.
    rewrite (IH _ Hnd'), lockedStep_results, lockedStep_installedMap.
    unfold push. rewrite <- app_assoc. simpl. do 2 f_equal.
    apply map_ext_in. intros e' Hin.
    rewrite JsMapFacts.get_delete_ne; [reflexivity|].
    intros E. apply Hnotin. rewrite <- E. now apply in_map.
Qed.

Lemma fold_lockedStep_names entries st :
  map name (st_results (fold_left step1 entries st))
  = map name (st_results st) ++ map fst entries.
Proof.
  revert st. induction entries as [|e l IH]; intros st; simpl.
  - now rewrite app_nil_r.
  - rewrite IH, lockedStep_results. unfold push. rewrite map_app, <- app_assoc.
    simpl. do 2 f_equal.
    unfold lockedResult.
    destruct (JsMap.get _ _); [|reflexivity].
    destruct (parseSkillMd w _); [|reflexivity].
    destruct isGlobal; [reflexivity|].
    destruct (computeSkillFolderHash w _); [|reflexivity].
    destruct (truthy _ && strict_neq _ _); reflexivity.
Qed.

Lemma untrackedStep_results st entry :
  st_results (step2 st entry) = push (st_results st) (result2 entry).
Proof. destruct entry. reflexivity. Qed.

Lemma fold_untrackedStep_results entries st :
  st_results (fold_left step2 entries st) = st_results st ++ map result2 entries.
Proof.
  revert st. induction entries as [|e l IH]; intros st; simpl.
  - now rewrite app_nil_r.
  - rewrite IH, untrackedStep_results. unfold push. now rewrite <- app_assoc.
Qed.
End Loops.

Lemma name_lockedResult w isGlobal cwd agentsToCheck found entry :
  name (lockedResult w isGlobal cwd agentsToCheck found entry) = fst entry.
Proof.
  unfold lockedResult. destruct found; [|reflexivity].
  destruct (parseSkillMd w _); [|reflexivity].
  destruct isGlobal; [reflexivity|].
  destruct (computeSkillFolderHash w _); [|reflexivity].
  destruct (truthy _ && strict_neq _ _); reflexivity.
Qed.

Lemma In_keys_deleteAll {V E : Type} (entries : list (string * E)) (m : JsMap.t V) k :
  NoDup (JsMap.keys m) ->
  In k (JsMap.keys (deleteAll entries m))
  <-> In k (JsMap.keys m) /\ ~ In k (map fst entries).
Proof.
  unfold deleteAll. revert m. induction entries as [|e l IH]; intros m Hnd; simpl.
  - tauto.
  - rewrite IH by now apply JsMapFacts.NoDup_keys_delete.
    rewrite JsMapFacts.In_keys_delete by assumption.
    split.
    + intros [[Hin Hne] Hnl]. split; [assumption|]. intros [Heq|H]; [congruence | tauto].
    + intros [Hin Hn]. repeat split; [assumption | | tauto].
      intros Heq. apply Hn. left. congruence.
Qed.

Lemma NoDup_keys_deleteAll {V E : Type} (entries : list (string * E)) (m : JsMap.t V) :
  NoDup (JsMap.keys m) -> NoDup (JsMap.keys (deleteAll entries m)).
Proof.
  unfold deleteAll. revert m. induction entries as [|e l IH]; intros m Hnd; simpl.
  - assumption.
  - apply IH. now apply JsMapFacts.NoDup_keys_delete.
Qed.

Lemma In_keys_fold_set (l : list InstalledSkill.t) (m : JsMap.t InstalledSkill.t) k :
  In k (JsMap.keys
          (fold_left (fun m skill => JsMap.set (InstalledSkill.name skill) skill m) l m))
  <-> In k (JsMap.keys m) \/ In k (map InstalledSkill.name l).
Proof.
  revert m. induction l as [|s l IH]; intros m; simpl.
  - tauto.
  - rewrite IH, JsMapFacts.In_keys_set. intuition congruence.
Qed.

Lemma NoDup_keys_fold_set (l : list InstalledSkill.t) (m : JsMap.t InstalledSkill.t) :
  NoDup (JsMap.keys m) ->
  NoDup (JsMap.keys
           (fold_left (fun m skill => JsMap.set (InstalledSkill.name skill) skill m) l m)).
Proof.
  revert m. induction l as [|s l IH]; intros m Hnd; simpl.
  - assumption.
  - apply IH. now apply JsMapFacts.NoDup_keys_set.
Qed.

Lemma In_keys_buildInstalledMap l k :
  In k (JsMap.keys (buildInstalledMap l)) <-> In k (map InstalledSkill.name l).
Proof.
  unfold buildInstalledMap. rewrite In_keys_fold_set. simpl. tauto.
Qed.

Lemma NoDup_keys_buildInstalledMap l : NoDup (JsMap.keys (buildInstalledMap l)).
Proof.
  unfold buildInstalledMap. apply NoDup_keys_fold_set. constructor.
Qed.

(** ** One result per name, in order *)

Lemma verifyLoops_results w options :
  NoDup (map fst (lockedSkillsOf w options)) ->
  st_results (verifyLoops w options)
  = map (fun e =>
           lockedResult w (isGlobalOf options) (cwdOf w options) (agentsToCheckOf w options)
             (JsMap.get (fst e) (buildInstalledMap (installedSkillsOf w options))) e)
        (lockedSkillsOf w options)
    ++ map (untrackedResult w (isGlobalOf options) (cwdOf w options)
              (agentsToCheckOf w options))
           (deleteAll (lockedSkillsOf w options)
              (buildInstalledMap (installedSkillsOf w options))).
Proof.
  intros Hnd. unfold verifyLoops.
  rewrite fold_untrackedStep_results, fold_lockedStep_installedMap.
  rewrite fold_lockedStep_results by exact Hnd. reflexivity.
Qed.

Lemma verifyLoops_names w options :
  map name (st_results (verifyLoops w options))
  = map fst (lockedSkillsOf w options)
    ++ JsMap.keys (deleteAll (lockedSkillsOf w options)
                     (buildInstalledMap (installedSkillsOf w options))).
Proof.
  unfold verifyLoops.
  rewrite fold_untrackedStep_results, map_app, fold_lockedStep_names.
  rewrite fold_lockedStep_installedMap. simpl. f_equal.
  unfold JsMap.keys. rewrite map_map. reflexivity.
Qed.

Section Sorting.
Context {A : Type} (cmp : A -> A -> Z).
Hypothesis cmp_total : forall a b, (cmp a b <= 0 \/ cmp b a <= 0)%Z.
Hypothesis cmp_trans : forall a b c, (cmp a b <= 0 -> cmp b c <= 0 -> cmp a c <= 0)%Z.

Local Abbreviation le := (fun a b => (cmp a b <= 0)%Z).

Lemma sort_insert_sorted x l :
  StronglySorted le l -> StronglySorted le (sort_insert cmp x l).
Proof.
  induction l as [|y l IH]; intros Hs; simpl.
  - repeat constructor.
  - inversion Hs as [|? ? Hs' Hall]; subst.
    destruct (Z.leb_spec (cmp x y) 0) as [Hle|Hgt].
    + constructor; [assumption|]. constructor; [assumption|].
      eapply Forall_impl; [|exact Hall]. intros z Hz. simpl in *. eauto.
    + constructor; [now apply IH|].
      rewrite (sort_insert_perm cmp x l). constructor; [|assumption].
      destruct (cmp_total x y); [lia | assumption].
Qed.

Lemma Array_sort_sorted l : StronglySorted le (Array_sort cmp l).
Proof.
  induction l as [|x l IH]; simpl; [constructor | now apply sort_insert_sorted].
Qed.
End Sorting.

Lemma codeUnitCompare_total a b :
  (Fixture.codeUnitCompare a b <= 0 \/ Fixture.codeUnitCompare b a <= 0)%Z.
Proof.
  revert b. induction a as [|x a IH]; intros [|y b]; simpl; try lia.
  rewrite (Nat.compare_antisym (nat_of_ascii x) (nat_of_ascii y)).
  destruct (Nat.compare (nat_of_ascii x) (nat_of_ascii y)); simpl; try lia.
  apply IH.
Qed.

Lemma codeUnitCompare_trans a b c :
  (Fixture.codeUnitCompare a b <= 0 -> Fixture.codeUnitCompare b c <= 0 ->
   Fixture.codeUnitCompare a c <= 0)%Z.
Proof.
  revert b c. induction a as [|x a IH]; intros [|y b] [|z c]; simpl; try lia.
  destruct (Nat.compare_spec (nat_of_ascii x) (nat_of_ascii y)) as [E1|L1|G1];
    destruct (Nat.compare_spec (nat_of_ascii y) (nat_of_ascii z)) as [E2|L2|G2];
    destruct (Nat.compare_spec (nat_of_ascii x) (nat_of_ascii z)) as [E3|L3|G3];
    try lia.
  apply IH.
Qed.

(** C5.  The lock object has each key once and [localeCompare] is a total
    preorder.  Then the results hold every skill name of the lock entries and
    of the installed skills, no other name and no name twice, and they are in
    ascending order of name under [localeCompare]. *)
Theorem verifySkills_one_result_per_name_sorted :
  forall (w : World) (options : Options.t),
    NoDup (map fst (lockedSkillsOf w options)) ->
    (forall a b, localeCompare w a b <= 0 \/ localeCompare w b a <= 0)%Z ->
    (forall a b c, localeCompare w a b <= 0 -> localeCompare w b c <= 0 ->
                   localeCompare w a c <= 0)%Z ->
    let rs := results (verifySkills w options) in
    NoDup (map name rs)
    /\ (forall n, In n (map name rs) <->
                  In n (map fst (lockedSkillsOf w options))
                  \/ In n (map InstalledSkill.name (installedSkillsOf w options)))
    /\ StronglySorted (nameLe w) rs.
Proof.
  intros w options Hnd Htotal Htrans rs.
  assert (Hperm : Permutation (map name rs) (map name (st_results (verifyLoops w options)))).
  { subst rs. unfold verifySkills. simpl. apply Permutation_map, Array_sort_perm. }
  pose proof (NoDup_keys_buildInstalledMap (installedSkillsOf w options)) as Hm.
  split; [|split].
  - eapply Permutation_NoDup; [symmetry; exact Hperm|].
    rewrite verifyLoops_names. apply NoDup_app; [assumption | | ].
    + now apply NoDup_keys_deleteAll.
    + intros n Hl Hk. apply In_keys_deleteAll in Hk; [|assumption]. tauto.
  - intros n.
    assert (Hin : In n (map name rs)
                  <-> In n (map name (st_results (verifyLoops w options)))).
    { split; apply Permutation_in; [exact Hperm | symmetry; exact Hperm]. }
    rewrite Hin, verifyLoops_names, in_app_iff.
    rewrite In_keys_deleteAll by assumption.
    rewrite In_keys_buildInstalledMap.
    destruct (in_dec string_dec n (map fst (lockedSkillsOf w options))); tauto.
  - subst rs. unfold verifySkills. simpl.
    apply (Array_sort_sorted (fun a b => localeCompare w (name a) (name b))).
    + intros a b. apply Htotal.
    + intros a b c. apply Htrans.
Qed.

Lemma verifySkills_one_result_per_name_sorted_witness :
  let rs := results (verifySkills scenarioUnion FixtureWorld.projectOptions) in
  map name rs = ["a"; "b"; "c"]
  /\ NoDup (map name rs)
  /\ (forall n, In n (map name rs) <->
                In n (map fst (lockedSkillsOf scenarioUnion FixtureWorld.projectOptions))
                \/ In n (map InstalledSkill.name
                           (installedSkillsOf scenarioUnion FixtureWorld.projectOptions)))
  /\ StronglySorted (nameLe scenarioUnion) rs.
Proof.
  split; [reflexivity|].
  apply (verifySkills_one_result_per_name_sorted scenarioUnion FixtureWorld.projectOptions).
  - repeat constructor; simpl; intuition discriminate.
  - exact codeUnitCompare_total.
  - exact codeUnitCompare_trans.
Defined.

(** ** The result of a locked skill *)

Lemma NoDup_map_fst_inj {V : Type} (l : list (string * V)) k v1 v2 :
  NoDup (map fst l) -> In (k, v1) l -> In (k, v2) l -> v1 = v2.
Proof.
  induction l as [|[k0 v0] l IH]; simpl; intros Hnd H1 H2; [contradiction|].
  inversion Hnd as [|? ? Hnotin Hnd']; subst.
  destruct H1 as [E1|H1], H2 as [E2|H2].
  - congruence.
  - injection E1 as -> ->. exfalso. apply Hnotin.
    change k with (fst (k, v2)). now apply in_map.
  - injection E2 as -> ->. exfalso. apply Hnotin.
    change k with (fst (k, v1)). now apply in_map.
  - now apply IH.
Qed.

Lemma get_buildInstalledMap_In l k s :
  JsMap.get k (buildInstalledMap l) = Some s -> In s l /\ InstalledSkill.name s = k.
Proof.
  unfold buildInstalledMap.
  assert (H : forall m,
             (forall k' s', JsMap.get k' m = Some s' ->
                            In s' l /\ InstalledSkill.name s' = k') ->
             forall l0, incl l0 l ->
             JsMap.get k
               (fold_left (fun m skill => JsMap.set (InstalledSkill.name skill) skill m) l0 m)
             = Some s ->
             In s l /\ InstalledSkill.name s = k).
  { intros m Hm l0. revert m Hm. induction l0 as [|x l0 IH]; intros m Hm Hincl; simpl.
    - apply Hm.
    - apply IH.
      + intros k' s' Hget.
        destruct (string_dec k' (InstalledSkill.name x)) as [->|Hne].
        * rewrite JsMapFacts.get_set_eq in Hget. injection Hget as <-.
          split; [apply Hincl; now left | reflexivity].
        * rewrite JsMapFacts.get_set_ne in Hget by assumption. now apply Hm.
      + intros y Hy. apply Hincl. now right. }
  apply (H JsMap.empty); [discriminate | apply incl_refl].
Qed.

Lemma get_fold_set_other (l : list InstalledSkill.t) (m : JsMap.t InstalledSkill.t) k :
  ~ In k (map InstalledSkill.name l) ->
  JsMap.get k
    (fold_left (fun m skill => JsMap.set (InstalledSkill.name skill) skill m) l m)
  = JsMap.get k m.
Proof.
  revert m. induction l as [|x l IH]; intros m Hk; simpl; [reflexivity|].
  simpl in Hk. rewrite IH by tauto.
  apply JsMapFacts.get_set_ne. intros E. apply Hk. left. now symmetry.
Qed.


(** With each lock key once, the results hold for a lock entry exactly the
    result the first loop computes from the initial [installedMap]. *)
Lemma verifySkills_result_of_locked w options skillName lockEntry :
  NoDup (map fst (lockedSkillsOf w options)) ->
  In (skillName, lockEntry) (lockedSkillsOf w options) ->
  forall r,
    In r (results (verifySkills w options)) /\ name r = skillName
    <-> r = lockedResult w (isGlobalOf options) (cwdOf w options)
              (agentsToCheckOf w options)
              (JsMap.get skillName (buildInstalledMap (installedSkillsOf w options)))
              (skillName, lockEntry).
Proof.
  intros Hnd Hin r.
  assert (Hres : In r (results (verifySkills w options))
                 <-> In r (st_results (verifyLoops w options))).
  { unfold verifySkills. simpl.
    split; apply Permutation_in; [|symmetry]; apply Array_sort_perm. }
  rewrite Hres, (verifyLoops_results _ _ Hnd), in_app_iff, !in_map_iff.
  split.
  - intros [[([k e] & Hr & He)|(e & Hr & He)] Hname].
    + subst r. rewrite name_lockedResult in Hname. simpl in Hname. subst k.
      simpl. now rewrite (NoDup_map_fst_inj _ _ _ _ Hnd He Hin).
    + exfalso. subst r. simpl in Hname.
      assert (Hk : In skillName
                     (JsMap.keys (deleteAll (lockedSkillsOf w options)
                                    (buildInstalledMap (installedSkillsOf w options))))).
      { rewrite <- Hname. unfold JsMap.keys. now apply in_map. }
      apply In_keys_deleteAll in Hk; [|apply NoDup_keys_buildInstalledMap].
      apply Hk. change skillName with (fst (skillName, lockEntry)). now apply in_map.
  - intros ->. split; [|now rewrite name_lockedResult].
    left. exists (skillName, lockEntry). split; [reflexivity | assumption].
Qed.

Lemma verifySkills_withComputeSkillFolderHash w h options :
  isGlobalOf options = true ->
  verifySkills (withComputeSkillFolderHash w h) options = verifySkills w options.
Proof.
  unfold isGlobalOf. intros Hg.
  unfold verifySkills, verifyLoops. rewrite Hg. reflexivity.
Qed.

(** Rewrites the result of a locked, installed skill whose SKILL.md parses
    into the record the first loop pushes. *)
Ltac locked_result Hnd Hin Hget Hmd Hg :=
  let Hiff := fresh "Hiff" in
  pose proof (verifySkills_result_of_locked _ _ _ _ Hnd Hin) as Hiff;
  rewrite Hget in Hiff; unfold lockedResult in Hiff; simpl in Hiff;
  rewrite Hmd, Hg in Hiff.

(** C2, amended.  In project scope, a skill that is in the lock file and on
    disk with a SKILL.md that parses, whose recorded [computedHash] is a
    non-empty string other than the recomputed fingerprint, has one result:
    status [modified], [expectedHash] the recorded hash and [actualHash] the
    recomputed one. *)
Theorem verifySkills_local_hash_mismatch_modified :
  forall (w : World) (options : Options.t) (skillName : string)
         (lockEntry : LockEntry) (installed : InstalledSkill.t) (md : Skill)
         (expected actual : string),
    isGlobalOf options = false ->
    NoDup (map fst (lockedSkillsOf w options)) ->
    In (skillName, lockEntry) (lockedSkillsOf w options) ->
    JsMap.get skillName (buildInstalledMap (installedSkillsOf w options)) = Some installed ->
    parseSkillMd w (join w (InstalledSkill.canonicalPath installed) "SKILL.md") = Some md ->
    computedHash lockEntry = Some expected ->
    expected <> "" ->
    computeSkillFolderHash w (InstalledSkill.canonicalPath installed) = Resolved actual ->
    actual <> expected ->
    (exists r, In r (results (verifySkills w options)) /\ name r = skillName)
    /\ (forall r, In r (results (verifySkills w options)) -> name r = skillName ->
                  status r = modified
                  /\ expectedHash r = Some expected
                  /\ actualHash r = Some actual).
Proof.
  intros w options skillName lockEntry installed md expected actual
         Hg Hnd Hin Hget Hmd Hexp Hne Hact Hdiff.
  locked_result Hnd Hin Hget Hmd Hg.
  rewrite Hact, Hexp in Hiff. simpl in Hiff.
  apply String.eqb_neq in Hne, Hdiff. rewrite Hne, Hdiff in Hiff. simpl in Hiff.
  split.
  - eexists. apply Hiff. reflexivity.
  - intros r Hr Hname. rewrite (proj1 (Hiff r) (conj Hr Hname)). simpl. tauto.
Qed.

Lemma verifySkills_local_hash_mismatch_modified_witness :
  (exists r, In r (results (verifySkills scenarioModified FixtureWorld.projectOptions))
             /\ name r = "x")
  /\ (forall r, In r (results (verifySkills scenarioModified FixtureWorld.projectOptions)) ->
                name r = "x" ->
                status r = modified
                /\ expectedHash r = Some "h1"
                /\ actualHash r = Some "h2").
Proof.
  apply (verifySkills_local_hash_mismatch_modified scenarioModified
           FixtureWorld.projectOptions "x"
           {| source := "test/repo"; sourceType := "github"; computedHash := Some "h1" |}
           (FixtureWorld.installedAt "x" [])
           {| skill_name := "skill"; skill_description := "a skill" |}
           "h1" "h2").
  - reflexivity.
  - repeat constructor; simpl; intuition discriminate.
  - simpl. left. reflexivity.
  - reflexivity.
  - reflexivity.
  - reflexivity.
  - discriminate.
  - reflexivity.
  - discriminate.
Defined.

(** C2 as stated fails: with the recorded hash the empty string and the
    recomputed fingerprint [h2], the two differ as strings and the status is
    [ok]. *)
Lemma verifySkills_hash_mismatch_counterexample :
  ~ (forall (skillName : string) (lockEntry : LockEntry)
            (installed : InstalledSkill.t) (md : Skill) (expected actual : string),
        isGlobalOf FixtureWorld.projectOptions = false ->
        In (skillName, lockEntry)
           (lockedSkillsOf scenarioEmptyHash FixtureWorld.projectOptions) ->
        JsMap.get skillName
          (buildInstalledMap (installedSkillsOf scenarioEmptyHash FixtureWorld.projectOptions))
        = Some installed ->
        parseSkillMd scenarioEmptyHash
          (join scenarioEmptyHash (InstalledSkill.canonicalPath installed) "SKILL.md")
        = Some md ->
        computedHash lockEntry = Some expected ->
        computeSkillFolderHash scenarioEmptyHash (InstalledSkill.canonicalPath installed)
        = Resolved actual ->
        actual <> expected ->
        forall r,
          In r (results (verifySkills scenarioEmptyHash FixtureWorld.projectOptions)) ->
          name r = skillName ->
          status r = modified
          /\ expectedHash r = Some expected
          /\ actualHash r = Some actual).
Proof.
  intros H.
  specialize (H "x"
                {| source := "test/repo"; sourceType := "github"; computedHash := Some "" |}
                (FixtureWorld.installedAt "x" [])
                {| skill_name := "skill"; skill_description := "a skill" |}
                "" "h2" eq_refl (or_introl eq_refl) eq_refl eq_refl eq_refl eq_refl).
  assert (Hne : "h2" <> "") by discriminate.
  specialize (H Hne
                {| name := "x"; path := "/proj/.agents/skills/x"; status := ok;
                   expectedHash := Some ""; actualHash := Some "h2"; agents := [];
                   brokenSymlinks := []; error := None |}
                (or_introl eq_refl) eq_refl).
  destruct H as [H _]. discriminate H.
Qed.

(** What the code does when fingerprinting throws: the status is [invalid],
    the recorded hash is kept, and [error] stays unset. *)
Lemma verifySkills_local_hash_failure w options skillName lockEntry installed md message :
  isGlobalOf options = false ->
  NoDup (map fst (lockedSkillsOf w options)) ->
  In (skillName, lockEntry) (lockedSkillsOf w options) ->
  JsMap.get skillName (buildInstalledMap (installedSkillsOf w options)) = Some installed ->
  parseSkillMd w (join w (InstalledSkill.canonicalPath installed) "SKILL.md") = Some md ->
  computeSkillFolderHash w (InstalledSkill.canonicalPath installed) = Rejected message ->
  forall r, In r (results (verifySkills w options)) -> name r = skillName ->
            status r = invalid
            /\ expectedHash r = computedHash lockEntry
            /\ actualHash r = None
            /\ error r = None.
Proof.
  intros Hg Hnd Hin Hget Hmd Hthrow.
  locked_result Hnd Hin Hget Hmd Hg.
  rewrite Hthrow in Hiff.
  intros r Hr Hname. rewrite (proj1 (Hiff r) (conj Hr Hname)). simpl. tauto.
Qed.

(** C10.  In project scope, a skill that is in the lock file and on disk
    with a SKILL.md that parses, whose [computedHash] is absent or the empty
    string and whose fingerprint is computed, has one result, with status
    [ok] whatever the recomputed hash is. *)
Theorem verifySkills_local_no_recorded_hash_ok :
  forall (w : World) (options : Options.t) (skillName : string)
         (lockEntry : LockEntry) (installed : InstalledSkill.t) (md : Skill)
         (actual : string),
    isGlobalOf options = false ->
    NoDup (map fst (lockedSkillsOf w options)) ->
    In (skillName, lockEntry) (lockedSkillsOf w options) ->
    JsMap.get skillName (buildInstalledMap (installedSkillsOf w options)) = Some installed ->
    parseSkillMd w (join w (InstalledSkill.canonicalPath installed) "SKILL.md") = Some md ->
    computedHash lockEntry = None \/ computedHash lockEntry = Some "" ->
    computeSkillFolderHash w (InstalledSkill.canonicalPath installed) = Resolved actual ->
    (exists r, In r (results (verifySkills w options)) /\ name r = skillName)
    /\ (forall r, In r (results (verifySkills w options)) -> name r = skillName ->
                  status r = ok
                  /\ expectedHash r = computedHash lockEntry
                  /\ actualHash r = Some actual).
Proof.
  intros w options skillName lockEntry installed md actual
         Hg Hnd Hin Hget Hmd Hexp Hact.
  locked_result Hnd Hin Hget Hmd Hg.
  rewrite Hact in Hiff.
  assert (Hfalsy : truthy (computedHash lockEntry) = false)
    by (destruct Hexp as [-> | ->]; reflexivity).
  rewrite Hfalsy in Hiff. simpl in Hiff.
  split.
  - eexists. apply Hiff. reflexivity.
  - intros r Hr Hname. rewrite (proj1 (Hiff r) (conj Hr Hname)). simpl. tauto.
Qed.

Lemma verifySkills_local_no_recorded_hash_ok_witness :
  (exists r, In r (results (verifySkills scenarioEmptyHash FixtureWorld.projectOptions))
             /\ name r = "x")
  /\ (forall r, In r (results (verifySkills scenarioEmptyHash FixtureWorld.projectOptions)) ->
                name r = "x" ->
                status r = ok
                /\ expectedHash r = Some ""
                /\ actualHash r = Some "h2").
Proof.
  apply (verifySkills_local_no_recorded_hash_ok scenarioEmptyHash
           FixtureWorld.projectOptions "x"
           {| source := "test/repo"; sourceType := "github"; computedHash := Some "" |}
           (FixtureWorld.installedAt "x" [])
           {| skill_name := "skill"; skill_description := "a skill" |}
           "h2").
  - reflexivity.
  - repeat constructor; simpl; intuition discriminate.
  - simpl. left. reflexivity.
  - reflexivity.
  - reflexivity.
  - right. reflexivity.
  - reflexivity.
Defined.

(** C8.  In global scope, a skill that is in the lock file and on disk with
    a SKILL.md that parses has one result, with status [ok] and neither
    [expectedHash] nor [actualHash]; the summary is the same whatever
    [computeSkillFolderHash] would answer, so the fingerprint is not
    recomputed. *)
Theorem verifySkills_global_presence_ok :
  forall (w : World) (options : Options.t) (skillName : string)
         (lockEntry : LockEntry) (installed : InstalledSkill.t) (md : Skill),
    isGlobalOf options = true ->
    NoDup (map fst (lockedSkillsOf w options)) ->
    In (skillName, lockEntry) (lockedSkillsOf w options) ->
    JsMap.get skillName (buildInstalledMap (installedSkillsOf w options)) = Some installed ->
    parseSkillMd w (join w (InstalledSkill.canonicalPath installed) "SKILL.md") = Some md ->
    (exists r, In r (results (verifySkills w options)) /\ name r = skillName)
    /\ (forall r, In r (results (verifySkills w options)) -> name r = skillName ->
                  status r = ok /\ expectedHash r = None /\ actualHash r = None)
    /\ (forall h, verifySkills (withComputeSkillFolderHash w h) options
                  = verifySkills w options).
Proof.
  intros w options skillName lockEntry installed md Hg Hnd Hin Hget Hmd.
  locked_result Hnd Hin Hget Hmd Hg.
  split; [|split].
  - eexists. apply Hiff. reflexivity.
  - intros r Hr Hname. rewrite (proj1 (Hiff r) (conj Hr Hname)). simpl. tauto.
  - intros h. now apply verifySkills_withComputeSkillFolderHash.
Qed.

Lemma verifySkills_global_presence_ok_witness :
  (exists r, In r (results (verifySkills scenarioGlobal FixtureWorld.globalOptions))
             /\ name r = "x")
  /\ (forall r, In r (results (verifySkills scenarioGlobal FixtureWorld.globalOptions)) ->
                name r = "x" ->
                status r = ok /\ expectedHash r = None /\ actualHash r = None)
  /\ (forall h, verifySkills (withComputeSkillFolderHash scenarioGlobal h)
                  FixtureWorld.globalOptions
                = verifySkills scenarioGlobal FixtureWorld.globalOptions).
Proof.
  apply (verifySkills_global_presence_ok scenarioGlobal FixtureWorld.globalOptions "x"
           {| source := "test/repo"; sourceType := "github"; computedHash := None |}
           (FixtureWorld.installedAt "x" [])
           {| skill_name := "skill"; skill_description := "a skill" |}).
  - reflexivity.
  - repeat constructor; simpl; intuition discriminate.
  - simpl. left. reflexivity.
  - reflexivity.
  - reflexivity.
Defined.

(** ** Broken links per result *)

Lemma lockedResult_brokenSymlinks w options found entry :
  brokenSymlinksByStatus w options
    (lockedResult w (isGlobalOf options) (cwdOf w options) (agentsToCheckOf w options)
       found entry).
Proof.
  unfold brokenSymlinksByStatus, lockedResult.
  destruct found as [installed|]; [|reflexivity].
  destruct (parseSkillMd w _); [|simpl; intros H; now contradiction H].
  destruct (isGlobalOf options); [reflexivity|].
  destruct (computeSkillFolderHash w _); [|simpl; intros _; reflexivity].
  destruct (truthy _ && strict_neq _ _); reflexivity.
Qed.

Lemma verifyLoops_brokenSymlinks w options :
  Forall (brokenSymlinksByStatus w options) (st_results (verifyLoops w options)).
Proof.
  unfold verifyLoops.
  apply (fold_left_invariant
           (fun st => Forall (brokenSymlinksByStatus w options) (st_results st))).
  { intros st e Hst. rewrite untrackedStep_results. unfold push.
    apply Forall_app. split; [assumption|]. constructor; [|constructor].
    reflexivity. }
  apply (fold_left_invariant
           (fun st => Forall (brokenSymlinksByStatus w options) (st_results st))).
  { intros st e Hst. rewrite lockedStep_results. unfold push.
    apply Forall_app. split; [assumption|]. constructor; [|constructor].
    apply lockedResult_brokenSymlinks. }
  constructor.
Qed.

(** C1, amended.  Every result with status [ok], [modified] or [untracked],
    and every [invalid] one that comes from a failed fingerprint (its error
    is not the one of a SKILL.md that does not parse), holds in
    [brokenSymlinks] the findings of the checker for the result's name and
    path; a [missing] result, for which there is no folder to check against,
    holds an empty array.  [counts.brokenSymlinks] is the number of findings
    over all results. *)
Theorem verifySkills_brokenSymlinks_by_status :
  forall (w : World) (options : Options.t),
    let summary := verifySkills w options in
    Forall (brokenSymlinksByStatus w options) (results summary)
    /\ Counts.brokenSymlinks (counts summary)
       = list_sum (map (fun r => List.length (brokenSymlinks r)) (results summary)).
Proof.
  intros w options summary. split.
  - subst summary. unfold verifySkills. simpl.
    eapply Permutation_Forall; [|apply verifyLoops_brokenSymlinks].
    symmetry. apply Array_sort_perm.
  - pose proof (verifyLoops_tally w options) as (_ & _ & _ & _ & _ & H).
    subst summary. unfold verifySkills. simpl. rewrite H.
    apply totalBrokenSymlinks_perm. symmetry. apply Array_sort_perm.
Qed.

(** C1 as stated fails: skill [gone] is classified [missing] and its result
    holds no finding, while two agents hold links of that name with different
    targets, so that the checker reports a finding for it whatever canonical
    path it is given. *)
Lemma verifySkills_brokenSymlinks_counterexample :
  ~ (forall r,
        In r (results (verifySkills scenarioDanglingLinks FixtureWorld.projectOptions)) ->
        exists canonicalPath,
          brokenSymlinks r
          = checkSymlinkIntegrity scenarioDanglingLinks (name r) canonicalPath
              (agentsToCheckOf scenarioDanglingLinks FixtureWorld.projectOptions)
              (symlinkOptions (isGlobalOf FixtureWorld.projectOptions)
                 (cwdOf scenarioDanglingLinks FixtureWorld.projectOptions))).
Proof.
  intros H.
  destruct (H {| name := "gone"; path := ""; status := missing;
                 expectedHash := None; actualHash := None; agents := [];
                 brokenSymlinks := [];
                 error := Some "Skill in lock file but not found on disk" |}
              (or_introl eq_refl)) as [p Hp].
  cbn [brokenSymlinks name] in Hp.
  destruct (string_dec p "/other/gone") as [->|Hne].
  - vm_compute in Hp. discriminate Hp.
  - assert (Hin : In {| agent := "cursor"; link := "/proj/.cursor/skills/gone" |}
                     (checkSymlinkIntegrity scenarioDanglingLinks "gone" p
                        (agentsToCheckOf scenarioDanglingLinks FixtureWorld.projectOptions)
                        (symlinkOptions (isGlobalOf FixtureWorld.projectOptions)
                           (cwdOf scenarioDanglingLinks FixtureWorld.projectOptions)))).
    { rewrite checkSymlinkIntegrity_flat_map, in_flat_map.
      exists "cursor". split; [left; reflexivity|].
      apply In_findingsOf. split; [reflexivity|]. split; [discriminate|].
      split; [reflexivity|]. split; [reflexivity|].
      exists "/other/gone". split; [reflexivity|].
      intros E. apply Hne. rewrite <- E. reflexivity. }
    rewrite <- Hp in Hin. exact Hin.
Qed.

(** In the same run skill [x] is [invalid] because its SKILL.md does not
    parse: its result holds no finding either, though the checker on its name
    and path reports the link of [cursor]. *)
Example verifySkills_invalid_metadata_unchecked :
  exists r,
    In r (results (verifySkills scenarioDanglingLinks FixtureWorld.projectOptions))
    /\ name r = "x" /\ status r = invalid /\ brokenSymlinks r = []
    /\ checkSymlinkIntegrity scenarioDanglingLinks (name r) (path r)
         (agentsToCheckOf scenarioDanglingLinks FixtureWorld.projectOptions)
         (symlinkOptions (isGlobalOf FixtureWorld.projectOptions)
            (cwdOf scenarioDanglingLinks FixtureWorld.projectOptions))
       = [{| agent := "cursor"; link := "/proj/.cursor/skills/x" |}].
Proof.
  eexists. split; [right; left; reflexivity|]. repeat split.
Qed.

(** C3 at a failing fingerprint: [computeSkillFolderHash] throws for [x]
    with the message [EACCES: permission denied].  The run goes on ([y] is
    [ok]) and [x] is [invalid], but its [error] is unset: the caught error
    is dropped. *)
Theorem verifySkills_hash_failure_drops_message :
  verifySkills scenarioHashThrows FixtureWorld.projectOptions
  = {| scope := project;
       results :=
         [ {| name := "x"; path := "/proj/.agents/skills/x"; status := invalid;
              expectedHash := Some "h1"; actualHash := None; agents := [];
              brokenSymlinks := []; error := None |};
           {| name := "y"; path := "/proj/.agents/skills/y"; status := ok;
              expectedHash := Some "h2"; actualHash := Some "h2"; agents := [];
              brokenSymlinks := []; error := None |} ];
       counts := {| Counts.ok := 1; Counts.modified := 0; Counts.missing := 0;
                    Counts.untracked := 0; Counts.invalid := 1;
                    Counts.brokenSymlinks := 0 |} |}.
Proof. reflexivity. Qed.

(** ** The summary depends on the observations only *)

Lemma fold_left_ext_in {S E : Type} (f g : S -> E -> S) l :
  (forall st e, In e l -> f st e = g st e) ->
  forall st, fold_left f l st = fold_left g l st.
Proof.
  induction l as [|e l IH]; intros H st; simpl; [reflexivity|].
  rewrite (H st e) by now left.
  apply IH. intros st' e' Hin. apply H. now right.
Qed.

Lemma fold_left_ext_invariant {S E : Type} (P : S -> Prop) (f g : S -> E -> S) l :
  (forall st e, P st -> f st e = g st e) ->
  (forall st e, P st -> P (f st e)) ->
  forall st, P st -> fold_left f l st = fold_left g l st.
Proof.
  intros Heq Hinv. induction l as [|e l IH]; intros st Hst; simpl; [reflexivity|].
  rewrite <- (Heq st e Hst). apply IH, Hinv, Hst.
Qed.

Lemma sort_insert_ext {A : Type} (c1 c2 : A -> A -> Z) x l :
  (forall a b, c1 a b = c2 a b) -> sort_insert c1 x l = sort_insert c2 x l.
Proof.
  intros H. induction l as [|y l IH]; simpl; [reflexivity|].
  now rewrite H, IH.
Qed.

Lemma Array_sort_ext {A : Type} (c1 c2 : A -> A -> Z) l :
  (forall a b, c1 a b = c2 a b) -> Array_sort c1 l = Array_sort c2 l.
Proof.
  intros H. induction l as [|x l IH]; simpl; [reflexivity|].
  now rewrite IH, (sort_insert_ext c1 c2 _ _ H).
Qed.

Lemma In_delete_weak {V : Type} (m : JsMap.t V) k k' v :
  In (k, v) (JsMap.delete k' m) -> In (k, v) m.
Proof.
  induction m as [|[k0 v0] m IH]; simpl; [tauto|].
  destruct (String.eqb k' k0); simpl; tauto.
Qed.

Lemma In_get_NoDup {V : Type} (m : JsMap.t V) k v :
  NoDup (JsMap.keys m) -> In (k, v) m -> JsMap.get k m = Some v.
Proof.
  induction m as [|[k0 v0] m IH]; simpl; intros Hnd Hin; [contradiction|].
  inversion Hnd as [|? ? Hnotin Hnd']; subst.
  destruct Hin as [E|Hin].
  - injection E as -> ->. now rewrite String.eqb_refl.
  - destruct (String.eqb_spec k k0) as [->|Hne]; [|now apply IH].
    exfalso. apply Hnotin. change k0 with (fst (k0, v)). now apply in_map.
Qed.

Lemma entriesInstalled_buildInstalledMap l : entriesInstalled l (buildInstalledMap l).
Proof.
  intros k s Hin.
  apply In_get_NoDup in Hin; [|apply NoDup_keys_buildInstalledMap].
  apply get_buildInstalledMap_In in Hin. tauto.
Qed.

Lemma entriesInstalled_delete l m k :
  entriesInstalled l m -> entriesInstalled l (JsMap.delete k m).
Proof.
  intros H k' s Hin. apply H. eapply In_delete_weak, Hin.
Qed.

Section SameObservations.
Variables w1 w2 : World.
Variable options : Options.t.
Hypothesis same : sameObservations w1 w2 options.

Local Abbreviation isGlobal := (isGlobalOf options).
Local Abbreviation cwd := (cwdOf w1 options).
Local Abbreviation agentsToCheck := (agentsToCheckOf w1 options).
Local Abbreviation installedSkills := (installedSkillsOf w1 options).

Lemma checkSymlinkIntegrity_same s :
  In s installedSkills ->
  checkSymlinkIntegrity w1 (InstalledSkill.name s) (InstalledSkill.canonicalPath s)
    agentsToCheck (symlinkOptions isGlobal cwd)
  = checkSymlinkIntegrity w2 (InstalledSkill.name s) (InstalledSkill.canonicalPath s)
      agentsToCheck (symlinkOptions isGlobal cwd).
Proof.
  destruct same as (Hcwd & Hjoin & Hdir & Hres & _ & Hbase & Hcanon & _ & _ & _ & _ & Hfs).
  intros Hs. unfold checkSymlinkIntegrity. rewrite <- Hcwd.
  apply fold_left_ext_in. intros acc a Ha.
  destruct (Hfs a s Ha Hs) as [Hlstat Hreadlink].
  assert (Hc : or_else (SymlinkOptions.cwd (symlinkOptions isGlobal cwd)) (process_cwd w1)
               = cwd).
  { unfold symlinkOptions, cwdOf, or_else. simpl.
    destruct (Options.cwd options) as [c|].
    - destruct (String.eqb c "") eqn:E; [|now rewrite E].
      destruct (String.eqb (process_cwd w1) ""); reflexivity.
    - destruct (String.eqb (process_cwd w1) ""); reflexivity. }
  rewrite Hc. unfold checkAgent. simpl.
  rewrite <- Hbase, <- Hcanon, <- !Hjoin.
  destruct (String.eqb _ _); [reflexivity|].
  rewrite <- Hlstat.
  destruct (lstat w1 _) as [[| | |]|] eqn:Hl; simpl; try reflexivity.
  rewrite <- (Hreadlink eq_refl).
  destruct (readlink w1 _); [|reflexivity].
  rewrite <- Hdir, <- Hres. reflexivity.
Qed.

Lemma lockedStep_same st entry :
  entriesInstalled installedSkills (st_installedMap st) ->
  lockedStep w1 isGlobal cwd agentsToCheck st entry
  = lockedStep w2 isGlobal cwd agentsToCheck st entry.
Proof.
  destruct same as (_ & Hjoin & _ & _ & _ & _ & _ & _ & _ & _ & Hskill & _).
  intros Hm. destruct entry as [skillName lockEntry]. unfold lockedStep.
  destruct (JsMap.get skillName (st_installedMap st)) as [installed|] eqn:Hget;
    [|reflexivity].
  apply JsMapFacts.get_Some_In, Hm in Hget. destruct Hget as [Hname Hin].
  destruct (Hskill installed Hin) as [Hmd Hhash].
  rewrite <- Hjoin, <- Hmd.
  destruct (parseSkillMd w1 _); [|reflexivity].
  pose proof (checkSymlinkIntegrity_same installed Hin) as Hcheck.
  rewrite Hname in Hcheck. unfold symlinkOptions in Hcheck. rewrite <- Hcheck.
  destruct (isGlobalOf options); simpl; [reflexivity|].
  rewrite <- (Hhash eq_refl). reflexivity.
Qed.

Lemma lockedStep_entriesInstalled st entry :
  entriesInstalled installedSkills (st_installedMap st) ->
  entriesInstalled installedSkills
    (st_installedMap (lockedStep w1 isGlobal cwd agentsToCheck st entry)).
Proof.
  intros Hm. rewrite lockedStep_installedMap. now apply entriesInstalled_delete.
Qed.

Lemma untrackedStep_same st entry :
  InstalledSkill.name (snd entry) = fst entry ->
  In (snd entry) installedSkills ->
  untrackedStep w1 isGlobal cwd agentsToCheck st entry
  = untrackedStep w2 isGlobal cwd agentsToCheck st entry.
Proof.
  destruct entry as [skillName installed]. simpl. intros Hname Hin.
  unfold untrackedStep.
  pose proof (checkSymlinkIntegrity_same installed Hin) as Hcheck.
  rewrite Hname in Hcheck. unfold symlinkOptions in Hcheck. rewrite <- Hcheck.
  reflexivity.
Qed.

Lemma verifyLoops_same : verifyLoops w1 options = verifyLoops w2 options.
Proof.
  pose proof same as (Hcwd & _ & _ & _ & _ & _ & _ & Hlock & Hinst & Hdet & _).
  assert (Hcwd2 : cwdOf w2 options = cwd) by (unfold cwdOf; now rewrite Hcwd).
  assert (Hagents : agentsToCheckOf w2 options = agentsToCheck)
    by (unfold agentsToCheckOf; now rewrite Hdet).
  change (verifyLoops w2 options)
    with (let st1 :=
            fold_left (lockedStep w2 isGlobal (cwdOf w2 options) (agentsToCheckOf w2 options))
              (lockedSkillsOf w2 options)
              {| st_results := []; st_counts := Counts.zero;
                 st_installedMap := buildInstalledMap (installedSkillsOf w2 options) |} in
          fold_left (untrackedStep w2 isGlobal (cwdOf w2 options) (agentsToCheckOf w2 options))
            (st_installedMap st1) st1).
  change (verifyLoops w1 options)
    with (let st1 :=
            fold_left (lockedStep w1 isGlobal cwd agentsToCheck)
              (lockedSkillsOf w1 options)
              {| st_results := []; st_counts := Counts.zero;
                 st_installedMap := buildInstalledMap installedSkills |} in
          fold_left (untrackedStep w1 isGlobal cwd agentsToCheck)
            (st_installedMap st1) st1).
  rewrite Hcwd2, Hagents, <- Hlock, <- Hinst. cbv zeta.
  set (st0 := {| st_results := []; st_counts := Counts.zero;
                 st_installedMap := buildInstalledMap installedSkills |}).
  assert (H0 : entriesInstalled installedSkills (st_installedMap st0))
    by apply entriesInstalled_buildInstalledMap.
  rewrite <- (fold_left_ext_invariant
                (fun st => entriesInstalled installedSkills (st_installedMap st))
                (lockedStep w1 isGlobal cwd agentsToCheck)
                (lockedStep w2 isGlobal cwd agentsToCheck)
                (lockedSkillsOf w1 options)
                lockedStep_same lockedStep_entriesInstalled st0 H0).
  set (st1 := fold_left (lockedStep w1 isGlobal cwd agentsToCheck)
                (lockedSkillsOf w1 options) st0).
  assert (H1 : entriesInstalled installedSkills (st_installedMap st1)).
  { subst st1.
    apply (fold_left_invariant
             (fun st => entriesInstalled installedSkills (st_installedMap st)));
      [exact lockedStep_entriesInstalled | exact H0]. }
  apply fold_left_ext_in. intros st [k s] Hin.
  destruct (H1 k s Hin) as [Hname Hs].
  now apply untrackedStep_same.
Qed.
End SameObservations.

(** C9.  Two runs that observe the same (lock entries of the scope,
    installed skills, detected agents, working directory, and answers of the
    file system at the paths the run probes) return the same summary: same
    scope, same results in the same order, same counts. *)
Theorem verifySkills_deterministic :
  forall (w1 w2 : World) (options : Options.t),
    sameObservations w1 w2 options ->
    verifySkills w1 options = verifySkills w2 options.
Proof.
  intros w1 w2 options same.
  unfold verifySkills. rewrite (verifyLoops_same w1 w2 options same).
  destruct same as (_ & _ & _ & _ & Hcmp & _).
  f_equal. apply Array_sort_ext. intros a b. apply Hcmp.
Qed.

Lemma verifySkills_deterministic_witness :
  scenarioRunOne <> scenarioRunTwo
  /\ verifySkills scenarioRunOne FixtureWorld.projectOptions
     = verifySkills scenarioRunTwo FixtureWorld.projectOptions.
Proof.
  split.
  - intros E. apply (f_equal readSkillLock) in E. discriminate E.
  - apply (verifySkills_deterministic scenarioRunOne scenarioRunTwo
             FixtureWorld.projectOptions).
    unfold sameObservations. do 10 (split; [reflexivity|]). split.
    + intros s Hs. simpl in Hs. destruct Hs as [<-|[]].
      split; [reflexivity|]. intros _. reflexivity.
    + intros a s Ha Hs. simpl in Ha, Hs.
      destruct Ha as [<-|[]], Hs as [<-|[]]. split; [reflexivity|].
      intros _. reflexivity.
Defined.

(** ** Command line *)

Example parseVerifyOptions_test_multiple_flags :
  parseVerifyOptions ["-g"; "-v"; "--json"; "-a"; "claude-code"]
  = {| VerifyOptions.global := Some true;
       VerifyOptions.agent := Some ["claude-code"];
       VerifyOptions.verbose := Some true;
       VerifyOptions.json := Some true |}.
Proof. reflexivity. Qed.

Example parseVerifyOptions_test_agents :
  parseVerifyOptions ["-a"; "claude-code"; "cursor"]
  = {| VerifyOptions.global := None;
       VerifyOptions.agent := Some ["claude-code"; "cursor"];
       VerifyOptions.verbose := None;
       VerifyOptions.json := None |}.
Proof. reflexivity. Qed.

Example parseVerifyOptions_test_no_arguments :
  parseVerifyOptions [] = VerifyOptions.empty.
Proof. reflexivity. Qed.

Lemma parseStep_dash st arg :
  startsWithDash arg = true -> parseStep st arg = parseStep (fst st, false) arg.
Proof.
  destruct st as [o c]. unfold parseStep. simpl. intros ->.
  now rewrite andb_false_r.
Qed.

(** The nested loops are the single pass. *)
Lemma parseVerifyArgs_run args :
  forall o,
    parseVerifyArgs args o = fst (fold_left parseStep args (o, false))
    /\ collectAgents args o = fst (fold_left parseStep args (o, true)).
Proof.
  induction args as [|arg rest IH]; intros o; [split; reflexivity|].
  assert (Hparse : parseVerifyArgs (arg :: rest) o
                   = fst (fold_left parseStep (arg :: rest) (o, false))).
  { simpl. unfold isGlobalFlag, isVerboseFlag, isJsonFlag, isAgentFlag.
    destruct (String.eqb arg "-g" || String.eqb arg "--global"); [apply IH|].
    destruct (String.eqb arg "-v" || String.eqb arg "--verbose"); [apply IH|].
    destruct (String.eqb arg "--json"); [apply IH|].
    destruct (String.eqb arg "-a" || String.eqb arg "--agent"); [|apply IH].
    apply (proj2 (IH (VerifyOptions.init_agent o))). }
  split; [exact Hparse|].
  change (collectAgents (arg :: rest) o)
    with (if negb (startsWithDash arg)
          then collectAgents rest (VerifyOptions.push_agent o arg)
          else parseVerifyArgs (arg :: rest) o).
  destruct (startsWithDash arg) eqn:Hdash; simpl negb; cbv iota.
  - rewrite Hparse.
    change (fst (fold_left parseStep rest (parseStep (o, false) arg))
            = fst (fold_left parseStep rest (parseStep (o, true) arg))).
    now rewrite (parseStep_dash (o, true) arg Hdash).
  - rewrite (proj2 (IH _)).
    change (fold_left parseStep (arg :: rest) (o, true))
      with (fold_left parseStep rest (parseStep (o, true) arg)).
    unfold parseStep at 2. simpl. now rewrite Hdash.
Qed.

Lemma parseVerifyOptions_run args :
  parseVerifyOptions args = fst (fold_left parseStep args (VerifyOptions.empty, false)).
Proof. apply parseVerifyArgs_run. Qed.

Lemma flag_startsWithDash arg :
  isGlobalFlag arg || isVerboseFlag arg || isJsonFlag arg || isAgentFlag arg = true ->
  startsWithDash arg = true.
Proof.
  unfold isGlobalFlag, isVerboseFlag, isJsonFlag, isAgentFlag.
  rewrite !orb_true_iff, !String.eqb_eq.
  intros [[[[-> | ->] | [-> | ->]] | ->] | [-> | ->]]; reflexivity.
Qed.

(** One step, by the shape of the argument: a dash ends the collection of
    agent names, and only an argument without a dash is collected. *)
Lemma parseStep_cases o c arg :
  parseStep (o, c) arg
  = if startsWithDash arg then
      if isGlobalFlag arg then (VerifyOptions.set_global o, false)
      else if isVerboseFlag arg then (VerifyOptions.set_verbose o, false)
      else if isJsonFlag arg then (VerifyOptions.set_json o, false)
      else if isAgentFlag arg then (VerifyOptions.init_agent o, true)
      else (o, false)
    else if c then (VerifyOptions.push_agent o arg, true) else (o, false).
Proof.
  unfold parseStep. pose proof (flag_startsWithDash arg) as Hflag.
  destruct (startsWithDash arg); simpl.
  - now rewrite andb_false_r.
  - destruct (isGlobalFlag arg); [discriminate Hflag; reflexivity|].
    destruct (isVerboseFlag arg); [discriminate Hflag; reflexivity|].
    destruct (isJsonFlag arg); [discriminate Hflag; reflexivity|].
    destruct (isAgentFlag arg); [discriminate Hflag; reflexivity|].
    destruct c; reflexivity.
Qed.

Lemma in_flag_existsb (args : list string) (short long : string) :
  existsb (fun a => String.eqb a short || String.eqb a long) args = true
  <-> In short args \/ In long args.
Proof.
  rewrite existsb_exists. split.
  - intros (a & Hin & Ha). rewrite orb_true_iff, !String.eqb_eq in Ha.
    destruct Ha as [-> | ->]; tauto.
  - intros [H|H]; eexists; (split; [exact H|]);
      rewrite String.eqb_refl; [reflexivity | apply orb_true_r].
Qed.

Lemma noDash_not_flag arg :
  startsWithDash arg = false ->
  isGlobalFlag arg = false /\ isVerboseFlag arg = false
  /\ isJsonFlag arg = false /\ isAgentFlag arg = false.
Proof.
  intros Hd. pose proof (flag_startsWithDash arg) as Hflag. rewrite Hd in Hflag.
  destruct (isGlobalFlag arg), (isVerboseFlag arg), (isJsonFlag arg), (isAgentFlag arg);
    simpl in Hflag; try (discriminate Hflag; reflexivity); tauto.
Qed.

Lemma flags_exclusive arg :
  (isGlobalFlag arg = true ->
   isVerboseFlag arg = false /\ isJsonFlag arg = false /\ isAgentFlag arg = false)
  /\ (isVerboseFlag arg = true -> isJsonFlag arg = false /\ isAgentFlag arg = false)
  /\ (isJsonFlag arg = true -> isAgentFlag arg = false).
Proof.
  unfold isGlobalFlag, isVerboseFlag, isJsonFlag, isAgentFlag.
  rewrite !orb_true_iff, !String.eqb_eq.
  split; [|split].
  - intros [-> | ->]; repeat split.
  - intros [-> | ->]; repeat split.
  - intros ->. reflexivity.
Qed.

(** The effect of the arguments on one flag: set by its two spellings, left
    alone by everything else. *)
Ltac run_flag_invariant IH arg :=
  cbn [fold_left existsb]; rewrite parseStep_cases;
  let Hd := fresh "Hd" in
  let Hg := fresh "Hg" in let Hv := fresh "Hv" in let Hj := fresh "Hj" in
  destruct (startsWithDash arg) eqn:Hd;
  [ destruct (isGlobalFlag arg) eqn:Hg;
    [ destruct (proj1 (flags_exclusive arg) Hg) as (Hv & Hj & _)
    | destruct (isVerboseFlag arg) eqn:Hv;
      [ destruct (proj1 (proj2 (flags_exclusive arg)) Hv) as (Hj & _)
      | destruct (isJsonFlag arg) eqn:Hj;
        [ | destruct (isAgentFlag arg) ] ] ]
  | destruct (noDash_not_flag arg Hd) as (Hg & Hv & Hj & _);
    match goal with |- context [if ?c then (_, true) else (_, false)] =>
      destruct c end ];
  rewrite ?Hg, ?Hv, ?Hj; rewrite IH; simpl; try reflexivity;
  now destruct (existsb _ _).

Lemma run_global args : forall o c,
  VerifyOptions.global (fst (fold_left parseStep args (o, c)))
  = if existsb isGlobalFlag args then Some true else VerifyOptions.global o.
Proof.
  induction args as [|arg rest IH]; intros o c; [reflexivity|].
  run_flag_invariant IH arg.
Qed.

Lemma run_verbose args : forall o c,
  VerifyOptions.verbose (fst (fold_left parseStep args (o, c)))
  = if existsb isVerboseFlag args then Some true else VerifyOptions.verbose o.
Proof.
  induction args as [|arg rest IH]; intros o c; [reflexivity|].
  run_flag_invariant IH arg.
Qed.

Lemma run_json args : forall o c,
  VerifyOptions.json (fst (fold_left parseStep args (o, c)))
  = if existsb isJsonFlag args then Some true else VerifyOptions.json o.
Proof.
  induction args as [|arg rest IH]; intros o c; [reflexivity|].
  run_flag_invariant IH arg.
Qed.

Lemma run_agent_None args : forall o c,
  (c = true -> VerifyOptions.agent o <> None) ->
  (VerifyOptions.agent (fst (fold_left parseStep args (o, c))) = None
   <-> VerifyOptions.agent o = None /\ existsb isAgentFlag args = false).
Proof.
  induction args as [|arg rest IH]; intros o c Hc.
  - simpl. tauto.
  - cbn [fold_left existsb]. rewrite parseStep_cases.
    destruct (startsWithDash arg) eqn:Hd.
    + destruct (isGlobalFlag arg) eqn:Hg.
      { destruct (proj1 (flags_exclusive arg) Hg) as (_ & _ & ->).
        rewrite IH by discriminate. reflexivity. }
      destruct (isVerboseFlag arg) eqn:Hv.
      { destruct (proj1 (proj2 (flags_exclusive arg)) Hv) as (_ & ->).
        rewrite IH by discriminate. reflexivity. }
      destruct (isJsonFlag arg) eqn:Hj.
      { rewrite (proj2 (proj2 (flags_exclusive arg)) Hj).
        rewrite IH by discriminate. reflexivity. }
      destruct (isAgentFlag arg).
      * rewrite IH by (intros _; discriminate). simpl.
        split; [intros [H _]; discriminate H | intros [_ H]; discriminate H].
      * rewrite IH by discriminate. reflexivity.
    + destruct (noDash_not_flag arg Hd) as (_ & _ & _ & ->).
      destruct c.
      * rewrite IH by (intros _; discriminate). simpl.
        specialize (Hc eq_refl).
        split; [intros [H _]; discriminate H | intros [H _]; contradiction].
      * rewrite IH by discriminate. reflexivity.
Qed.

Lemma run_agentNames args : forall o c a,
  In a (agentNames (fst (fold_left parseStep args (o, c)))) ->
  In a (agentNames o) \/ (In a args /\ noDash a).
Proof.
  induction args as [|arg rest IH]; intros o c a; [simpl; tauto|].
  cbn [fold_left]. rewrite parseStep_cases. intros Hin.
  assert (Hrest : forall o' c',
             In a (agentNames (fst (fold_left parseStep rest (o', c')))) ->
             agentNames o' = agentNames o ->
             In a (agentNames o) \/ In a (arg :: rest) /\ noDash a).
  { intros o' c' H E. apply IH in H. rewrite E in H. simpl. tauto. }
  destruct (startsWithDash arg) eqn:Hd.
  - destruct (isGlobalFlag arg); [now apply Hrest in Hin|].
    destruct (isVerboseFlag arg); [now apply Hrest in Hin|].
    destruct (isJsonFlag arg); [now apply Hrest in Hin|].
    destruct (isAgentFlag arg); [|now apply Hrest in Hin].
    apply Hrest in Hin; [assumption|].
    unfold agentNames. simpl. now destruct (VerifyOptions.agent o).
  - destruct c; [|now apply Hrest in Hin].
    apply IH in Hin. destruct Hin as [Hin|Hin]; [|simpl; tauto].
    unfold agentNames, VerifyOptions.push_agent, push in Hin. simpl in Hin.
    apply in_app_or in Hin. destruct Hin as [Hin|[<-|[]]].
    + left. exact Hin.
    + right. split; [now left | exact Hd].
Qed.

Lemma mergeVerifyOptions_empty_r o : mergeVerifyOptions o VerifyOptions.empty = o.
Proof.
  destruct o as [[[|]|] [l|] [[|]|] [[|]|]]; reflexivity.
Qed.

Lemma orFlag_None_l b : orFlag None b = b.
Proof. destruct b as [[|]|]; reflexivity. Qed.

Lemma orFlag_true_r a : orFlag a (Some true) = Some true.
Proof. destruct a as [[|]|]; reflexivity. Qed.

(** A step on [o] is the step on the empty options, merged into [o]. *)
Lemma parseStep_merge o c arg x :
  mergeVerifyOptions (fst (parseStep (o, c) arg)) x
  = mergeVerifyOptions o (mergeVerifyOptions (fst (parseStep (VerifyOptions.empty, c) arg)) x)
  /\ snd (parseStep (o, c) arg) = snd (parseStep (VerifyOptions.empty, c) arg).
Proof.
  rewrite !parseStep_cases.
  destruct (startsWithDash arg).
  - destruct (isGlobalFlag arg).
    { split; [|reflexivity]. unfold mergeVerifyOptions. cbn -[orFlag].
      rewrite ?orFlag_None_l, ?orFlag_true_r. now destruct (VerifyOptions.agent o). }
    destruct (isVerboseFlag arg).
    { split; [|reflexivity]. unfold mergeVerifyOptions. cbn -[orFlag].
      rewrite ?orFlag_None_l, ?orFlag_true_r. now destruct (VerifyOptions.agent o). }
    destruct (isJsonFlag arg).
    { split; [|reflexivity]. unfold mergeVerifyOptions. cbn -[orFlag].
      rewrite ?orFlag_None_l, ?orFlag_true_r. now destruct (VerifyOptions.agent o). }
    destruct (isAgentFlag arg); (split; [|reflexivity]);
      unfold mergeVerifyOptions; cbn -[orFlag]; rewrite ?orFlag_None_l.
    + destruct (VerifyOptions.agent o), (VerifyOptions.agent x);
        simpl; rewrite ?app_nil_r; reflexivity.
    + now destruct (VerifyOptions.agent o).
  - destruct c; (split; [|reflexivity]);
      unfold mergeVerifyOptions, push; cbn -[orFlag]; rewrite ?orFlag_None_l.
    + destruct (VerifyOptions.agent o), (VerifyOptions.agent x);
        unfold push; simpl; rewrite <- ?app_assoc; reflexivity.
    + now destruct (VerifyOptions.agent o).
Qed.

Lemma run_merge args : forall o c,
  fst (fold_left parseStep args (o, c))
  = mergeVerifyOptions o (fst (fold_left parseStep args (VerifyOptions.empty, c))).
Proof.
  induction args as [|arg rest IH]; intros o c.
  - simpl. now rewrite mergeVerifyOptions_empty_r.
  - cbn [fold_left].
    destruct (parseStep (o, c) arg) as [o1 c1] eqn:E1.
    destruct (parseStep (VerifyOptions.empty, c) arg) as [o2 c2] eqn:E2.
    pose proof (parseStep_merge o c arg
                  (fst (fold_left parseStep rest (VerifyOptions.empty, c1)))) as [Hm Hc].
    rewrite E1, E2 in Hm, Hc. simpl in Hm, Hc. subst c2.
    rewrite (IH o1 c1), (IH o2 c1). exact Hm.
Qed.

Lemma run_startsAtFlag args o c :
  startsAtFlag args ->
  fst (fold_left parseStep args (o, c)) = fst (fold_left parseStep args (o, false)).
Proof.
  destruct args as [|arg rest]; [reflexivity|]. intros Hd. cbn [fold_left].
  now rewrite (parseStep_dash (o, c) arg Hd).
Qed.

Lemma parseVerifyOptions_app_run a b :
  startsAtFlag b ->
  parseVerifyOptions (a ++ b)
  = mergeVerifyOptions (parseVerifyOptions a) (parseVerifyOptions b).
Proof.
  intros Hb. rewrite !parseVerifyOptions_run, fold_left_app.
  destruct (fold_left parseStep a (VerifyOptions.empty, false)) as [oa ca].
  rewrite (run_startsAtFlag b oa ca Hb). apply run_merge.
Qed.

Lemma run_names names : forall o,
  Forall noDash names ->
  fold_left parseStep names (o, true)
  = (fold_left VerifyOptions.push_agent names o, true).
Proof.
  induction names as [|n names IH]; intros o Hall; [reflexivity|].
  inversion Hall as [|? ? Hn Hall']; subst.
  cbn [fold_left]. rewrite parseStep_cases, Hn. now apply IH.
Qed.

Lemma agent_fold_push names : forall o,
  VerifyOptions.agent o <> None ->
  fold_left VerifyOptions.push_agent names o
  = {| VerifyOptions.global := VerifyOptions.global o;
       VerifyOptions.agent := Some (agentNames o ++ names);
       VerifyOptions.verbose := VerifyOptions.verbose o;
       VerifyOptions.json := VerifyOptions.json o |}.
Proof.
  induction names as [|n names IH]; intros o Ho.
  - simpl. rewrite app_nil_r. unfold agentNames.
    destruct o as [g [l|] v j]; [reflexivity | contradiction].
  - cbn [fold_left]. rewrite IH by discriminate.
    unfold agentNames, VerifyOptions.push_agent, push. simpl.
    now rewrite <- app_assoc.
Qed.

Lemma in_json_existsb (args : list string) :
  existsb isJsonFlag args = true <-> In "--json" args.
Proof.
  rewrite existsb_exists. unfold isJsonFlag. split.
  - intros (a & Hin & Ha). apply String.eqb_eq in Ha. now subst.
  - intros H. exists "--json". split; [exact H | reflexivity].
Qed.

Lemma flag_value (b : bool) (P : Prop) :
  (b = true <-> P) ->
  ((if b then Some true else @None bool) = Some true <-> P)
  /\ ((if b then Some true else @None bool) = None <-> ~ P).
Proof.
  intros H. destruct b.
  - split.
    + split; [intros _; apply H; reflexivity | reflexivity].
    + split; [discriminate | intros HnP; exfalso; apply HnP, H; reflexivity].
  - split.
    + split; [discriminate | intros HP; apply H in HP; discriminate].
    + split; [intros _ HP; apply H in HP; discriminate | reflexivity].
Qed.

Lemma agentFlag_only flag :
  isAgentFlag flag = true ->
  isGlobalFlag flag = false /\ isVerboseFlag flag = false /\ isJsonFlag flag = false.
Proof.
  unfold isAgentFlag. rewrite orb_true_iff, !String.eqb_eq.
  intros [-> | ->]; repeat split.
Qed.

(** X1.  [parseVerifyOptions] sets [global] to [true] exactly when [-g] or
    [--global] is among the arguments, wherever it stands, and leaves it
    unset otherwise; likewise [verbose] with [-v] and [--verbose], and [json]
    with [--json].  A flag is never taken for an agent name. *)
Theorem parseVerifyOptions_flags :
  forall args : list string,
    let o := parseVerifyOptions args in
    (VerifyOptions.global o = Some true <-> In "-g" args \/ In "--global" args)
    /\ (VerifyOptions.global o = None <-> ~ (In "-g" args \/ In "--global" args))
    /\ (VerifyOptions.verbose o = Some true <-> In "-v" args \/ In "--verbose" args)
    /\ (VerifyOptions.verbose o = None <-> ~ (In "-v" args \/ In "--verbose" args))
    /\ (VerifyOptions.json o = Some true <-> In "--json" args)
    /\ (VerifyOptions.json o = None <-> ~ In "--json" args).
Proof.
  intros args o. subst o. rewrite parseVerifyOptions_run.
  rewrite run_global, run_verbose, run_json. simpl.
  pose proof (flag_value _ _ (in_flag_existsb args "-g" "--global")) as [H1 H2].
  pose proof (flag_value _ _ (in_flag_existsb args "-v" "--verbose")) as [H3 H4].
  pose proof (flag_value _ _ (in_json_existsb args)) as [H5 H6].
  repeat split; try apply H1; try apply H2; try apply H3; try apply H4;
    try apply H5; try apply H6.
Qed.

(** X2.  [agent] is left unset exactly when neither [-a] nor [--agent] is
    among the arguments; when it is set, every name in it is one of the
    arguments and does not start with a dash. *)
Theorem parseVerifyOptions_agent :
  forall args : list string,
    let o := parseVerifyOptions args in
    (VerifyOptions.agent o = None <-> ~ (In "-a" args \/ In "--agent" args))
    /\ Forall (fun a => In a args /\ startsWithDash a = false) (agentNames o).
Proof.
  intros args o. subst o. rewrite parseVerifyOptions_run. split.
  - rewrite run_agent_None by discriminate.
    pose proof (in_flag_existsb args "-a" "--agent") as Hin.
    change (existsb (fun a => String.eqb a "-a" || String.eqb a "--agent") args)
      with (existsb isAgentFlag args) in Hin.
    destruct (existsb isAgentFlag args).
    + split; [intros [_ H]; discriminate | intros H; exfalso; apply H, Hin; reflexivity].
    + split; [intros _ H; apply Hin in H; discriminate | intros _; split; reflexivity].
  - apply Forall_forall. intros a Ha.
    apply run_agentNames in Ha. destruct Ha as [[]|Ha]. exact Ha.
Qed.

(** X3.  Arguments put after others are parsed on their own when they begin
    with an argument that starts with a dash (or are empty): the options of
    the whole are the options of the two parts merged, the flags of either
    and the agent names of the first followed by those of the second. *)
Theorem parseVerifyOptions_app :
  forall a b : list string,
    startsAtFlag b ->
    parseVerifyOptions (a ++ b)
    = mergeVerifyOptions (parseVerifyOptions a) (parseVerifyOptions b).
Proof. exact parseVerifyOptions_app_run. Qed.

Lemma parseVerifyOptions_app_witness :
  parseVerifyOptions (["-a"; "cursor"; "-v"] ++ ["--agent"; "claude-code"; "-g"])
  = mergeVerifyOptions (parseVerifyOptions ["-a"; "cursor"; "-v"])
      (parseVerifyOptions ["--agent"; "claude-code"; "-g"]).
Proof.
  apply (parseVerifyOptions_app ["-a"; "cursor"; "-v"] ["--agent"; "claude-code"; "-g"]).
  reflexivity.
Defined.

(** X4.  After [-a] or [--agent], the arguments up to the next one that
    starts with a dash are the agent names, in order; the arguments from that
    one on are parsed as if they stood alone, and their agent names come
    after. *)
Theorem parseVerifyOptions_agent_run :
  forall (flag : string) (names rest : list string),
    isAgentFlag flag = true ->
    Forall noDash names ->
    startsAtFlag rest ->
    let o := parseVerifyOptions (flag :: names ++ rest) in
    VerifyOptions.agent o = Some (names ++ agentNames (parseVerifyOptions rest))
    /\ VerifyOptions.global o = VerifyOptions.global (parseVerifyOptions rest)
    /\ VerifyOptions.verbose o = VerifyOptions.verbose (parseVerifyOptions rest)
    /\ VerifyOptions.json o = VerifyOptions.json (parseVerifyOptions rest).
Proof.
  intros flag names rest Hflag Hnames Hrest o. subst o.
  rewrite !parseVerifyOptions_run. cbn [fold_left].
  rewrite parseStep_cases.
  destruct (agentFlag_only flag Hflag) as (Hg & Hv & Hj).
  rewrite (flag_startsWithDash flag) by (rewrite Hflag; apply orb_true_r).
  rewrite Hg, Hv, Hj, Hflag.
  rewrite fold_left_app, (run_names names _ Hnames).
  rewrite (run_startsAtFlag rest _ true Hrest), run_merge.
  rewrite agent_fold_push by discriminate.
  unfold mergeVerifyOptions, agentNames. cbn -[orFlag].
  rewrite ?orFlag_None_l.
  destruct (VerifyOptions.agent (fst (fold_left parseStep rest (VerifyOptions.empty, false))));
    rewrite ?app_nil_r; repeat split; reflexivity.
Qed.

Lemma parseVerifyOptions_agent_run_witness :
  let o := parseVerifyOptions ("--agent" :: ["claude-code"; "cursor"] ++ ["-g"; "-a"; "codex"]) in
  VerifyOptions.agent o
  = Some (["claude-code"; "cursor"] ++ agentNames (parseVerifyOptions ["-g"; "-a"; "codex"]))
  /\ VerifyOptions.global o = VerifyOptions.global (parseVerifyOptions ["-g"; "-a"; "codex"])
  /\ VerifyOptions.verbose o = VerifyOptions.verbose (parseVerifyOptions ["-g"; "-a"; "codex"])
  /\ VerifyOptions.json o = VerifyOptions.json (parseVerifyOptions ["-g"; "-a"; "codex"]).
Proof.
  apply (parseVerifyOptions_agent_run "--agent" ["claude-code"; "cursor"]
           ["-g"; "-a"; "codex"]).
  - reflexivity.
  - repeat constructor.
  - reflexivity.
Defined.

(** ** Paths in the output *)

Lemma prefix_app p s : String.prefix p (p ++ s)%string = true.
Proof.
  induction p as [|c p IH]; simpl; [now destruct s|].
  destruct (ascii_dec c c); [exact IH | contradiction].
Qed.

Lemma prefix_split p s :
  String.prefix p s = true -> exists rest, s = (p ++ rest)%string.
Proof.
  revert s. induction p as [|c p IH]; intros s H.
  - exists s. reflexivity.
  - destruct s as [|c' s]; simpl in H; [discriminate|].
    destruct (ascii_dec c c') as [->|]; [|discriminate].
    destruct (IH s H) as [rest ->]. exists rest. reflexivity.
Qed.

Lemma index_prefix p s : String.prefix p s = true -> String.index 0 p s = Some 0.
Proof.
  destruct s as [|c s].
  - destruct p; [reflexivity | discriminate].
  - intros H. cbn [String.index]. now rewrite H.
Qed.

Lemma slice_from_app p s : slice_from (String.length p) (p ++ s)%string = s.
Proof.
  induction p as [|c p IH]; simpl; [now destruct s | exact IH].
Qed.

(** X5.  A path that begins with the home directory is shown with [~] in
    place of it, whatever follows (a separator or not) and whatever the
    working directory is: the home directory is tried before the working
    directory, so a path below a working directory that lies below home is
    shown from [~], not from [.]. *)
Theorem shortenPath_home_first :
  forall (h : Host) (cwd rest : string),
    shortenPath h (homedir h ++ rest)%string cwd = ("~" ++ rest)%string
    /\ forall below : string,
         shortenPath h ((homedir h ++ below) ++ rest)%string (homedir h ++ below)%string
         = ("~" ++ below ++ rest)%string.
Proof.
  assert (H : forall h cwd rest,
             shortenPath h (homedir h ++ rest)%string cwd = ("~" ++ rest)%string).
  { intros h cwd rest. unfold shortenPath, String_replace.
    rewrite prefix_app, (index_prefix _ _ (prefix_app _ _)).
    simpl. rewrite slice_from_app.
    now destruct (homedir h ++ rest)%string. }
  intros h cwd rest. split; [apply H|].
  intros below.
  replace ((homedir h ++ below) ++ rest)%string
    with (homedir h ++ (below ++ rest))%string; [apply H|].
  induction (homedir h) as [|c s IH]; simpl; [reflexivity | now rewrite IH].
Qed.

(** X6.  A path that does not begin with the home directory and begins with
    the working directory is shown with [.] in place of the working
    directory. *)
Theorem shortenPath_cwd :
  forall (h : Host) (cwd rest : string),
    String.prefix (homedir h) (cwd ++ rest)%string = false ->
    shortenPath h (cwd ++ rest)%string cwd = ("." ++ rest)%string.
Proof.
  intros h cwd rest Hhome. unfold shortenPath.
  now rewrite Hhome, prefix_app, slice_from_app.
Qed.

Lemma shortenPath_cwd_witness :
  shortenPath plainHost ("/srv/proj" ++ "/.agents/skills/x")%string "/srv/proj"
  = ("." ++ "/.agents/skills/x")%string.
Proof.
  apply (shortenPath_cwd plainHost "/srv/proj" "/.agents/skills/x").
  reflexivity.
Defined.

(** ** More on the symlink integrity checker *)

Lemma findingsOf_cases w skillName canonicalPath options a :
  findingsOf w skillName canonicalPath options a = []
  \/ findingsOf w skillName canonicalPath options a = [findingFor w skillName options a].
Proof.
  unfold findingsOf, checkAgent, findingFor, push.
  destruct (String.eqb _ _); [now left|].
  destruct (lstat w _) as [st|]; [|now left].
  destruct (isSymbolicLink st); [|now left].
  destruct (readlink w _); [|now left].
  destruct (negb _); [now right | now left].
Qed.

(** X7.  The findings for a list of agents are the findings for its first
    part followed by those for the rest: each agent is judged on its own. *)
Theorem checkSymlinkIntegrity_app :
  forall (w : World) (skillName canonicalPath : string)
         (agents1 agents2 : list AgentType) (options : SymlinkOptions.t),
    checkSymlinkIntegrity w skillName canonicalPath (agents1 ++ agents2) options
    = checkSymlinkIntegrity w skillName canonicalPath agents1 options
      ++ checkSymlinkIntegrity w skillName canonicalPath agents2 options.
Proof.
  intros. rewrite !checkSymlinkIntegrity_flat_map. apply flat_map_app.
Qed.

(** X8.  The findings come in the order of [agentsToCheck], at most one for
    each agent listed, and each is the agent with its link path
    [baseDir/skillName]. *)
Theorem checkSymlinkIntegrity_in_order :
  forall (w : World) (skillName canonicalPath : string)
         (agentsToCheck : list AgentType) (options : SymlinkOptions.t),
    exists keep : AgentType -> bool,
      checkSymlinkIntegrity w skillName canonicalPath agentsToCheck options
      = map (findingFor w skillName options) (filter keep agentsToCheck).
Proof.
  intros w skillName canonicalPath agentsToCheck options.
  exists (fun a => negb (isNil (findingsOf w skillName canonicalPath options a))).
  rewrite checkSymlinkIntegrity_flat_map.
  induction agentsToCheck as [|a l IH]; [reflexivity|].
  cbn [flat_map filter]. rewrite IH.
  destruct (findingsOf_cases w skillName canonicalPath options a) as [-> | ->];
    reflexivity.
Qed.

(** ** Invariants of the results *)

Lemma fold_left_invariant_in {S E : Type} (P : S -> Prop) (step : S -> E -> S) l :
  (forall st e, In e l -> P st -> P (step st e)) ->
  forall st, P st -> P (fold_left step l st).
Proof.
  induction l as [|e l IH]; intros Hstep st Hst; simpl; [assumption|].
  apply IH.
  - intros st' e' Hin. apply Hstep. now right.
  - apply Hstep; [now left | assumption].
Qed.

Lemma symlinkOptions_cwd w options :
  or_else (SymlinkOptions.cwd (symlinkOptions (isGlobalOf options) (cwdOf w options)))
    (process_cwd w)
  = cwdOf w options.
Proof.
  unfold symlinkOptions, cwdOf, or_else. simpl.
  destruct (Options.cwd options) as [c|].
  - destruct (String.eqb c "") eqn:E; [|now rewrite E].
    destruct (String.eqb (process_cwd w) ""); reflexivity.
  - destruct (String.eqb (process_cwd w) ""); reflexivity.
Qed.

(** A property of every result follows from the property of what each loop
    pushes, the skill found in [installedMap] being an installed one under
    the name looked up. *)
Lemma verifySkills_results_Forall (P : VerifyResult -> Prop) w options :
  (forall found entry,
      (forall s, found = Some s ->
                 InstalledSkill.name s = fst entry /\ In s (installedSkillsOf w options)) ->
      P (lockedResult w (isGlobalOf options) (cwdOf w options) (agentsToCheckOf w options)
           found entry)) ->
  (forall entry,
      InstalledSkill.name (snd entry) = fst entry ->
      In (snd entry) (installedSkillsOf w options) ->
      P (untrackedResult w (isGlobalOf options) (cwdOf w options) (agentsToCheckOf w options)
           entry)) ->
  Forall P (results (verifySkills w options)).
Proof.
  intros Hlocked Huntracked.
  unfold verifySkills. simpl.
  eapply Permutation_Forall; [symmetry; apply Array_sort_perm|].
  set (Inv := fun st : LoopState =>
                entriesInstalled (installedSkillsOf w options) (st_installedMap st)
                /\ Forall P (st_results st)).
  assert (H1 : Inv (fold_left
                      (lockedStep w (isGlobalOf options) (cwdOf w options)
                         (agentsToCheckOf w options))
                      (lockedSkillsOf w options)
                      {| st_results := []; st_counts := Counts.zero;
                         st_installedMap := buildInstalledMap (installedSkillsOf w options) |})).
  { apply fold_left_invariant.
    - intros st e [Hm Hr]. split.
      + rewrite lockedStep_installedMap. now apply entriesInstalled_delete.
      + rewrite lockedStep_results. unfold push. apply Forall_app.
        split; [assumption|]. constructor; [|constructor].
        apply Hlocked. intros s Hs.
        apply JsMapFacts.get_Some_In, Hm in Hs. exact Hs.
    - split; [apply entriesInstalled_buildInstalledMap | constructor]. }
  change (verifyLoops w options)
    with (let st1 :=
            fold_left (lockedStep w (isGlobalOf options) (cwdOf w options)
                         (agentsToCheckOf w options))
              (lockedSkillsOf w options)
              {| st_results := []; st_counts := Counts.zero;
                 st_installedMap := buildInstalledMap (installedSkillsOf w options) |} in
          fold_left (untrackedStep w (isGlobalOf options) (cwdOf w options)
                       (agentsToCheckOf w options))
            (st_installedMap st1) st1).
  cbv zeta.
  set (st1 := fold_left _ (lockedSkillsOf w options) _) in *.
  destruct H1 as [Hm1 Hr1].
  apply (fold_left_invariant_in (fun st => Forall P (st_results st))); [|exact Hr1].
  intros st [k s] Hin Hst. rewrite untrackedStep_results. unfold push.
  apply Forall_app. split; [assumption|]. constructor; [|constructor].
  destruct (Hm1 k s Hin) as [Hname Hs]. now apply Huntracked.
Qed.

Lemma In_agentsToCheckOf w options a :
  In a (agentsToCheckOf w options) ->
  In a (detectInstalledAgents w)
  /\ (forall f, Options.agentFilter options = Some f -> In a f).
Proof.
  unfold agentsToCheckOf, selectAgents.
  destruct (Options.agentFilter options) as [f|].
  - rewrite filter_In. intros [Hd Hf]. split; [assumption|].
    intros f' [= <-]. unfold includes in Hf. apply existsb_exists in Hf.
    destruct Hf as (x & Hx & E). apply String.eqb_eq in E. now subst.
  - intros H. split; [assumption | discriminate].
Qed.

Lemma checkSymlinkIntegrity_backed w options r b :
  In b (checkSymlinkIntegrity w (name r) (path r) (agentsToCheckOf w options)
          (symlinkOptions (isGlobalOf options) (cwdOf w options))) ->
  findingBacked w options r b.
Proof.
  rewrite checkSymlinkIntegrity_flat_map, in_flat_map.
  intros (a & Ha & Hb). apply In_findingsOf in Hb.
  rewrite symlinkOptions_cwd in Hb. simpl in Hb.
  destruct Hb as (Hag & _ & Hlink & Hlstat & Htarget). subst a.
  destruct (In_agentsToCheckOf _ _ _ Ha) as [Hd Hf].
  unfold findingBacked. repeat split; assumption.
Qed.

Lemma verifySkills_findings_backed_all w options :
  Forall (fun r => Forall (findingBacked w options r) (brokenSymlinks r))
         (results (verifySkills w options)).
Proof.
  apply verifySkills_results_Forall.
  - intros found entry _. unfold lockedResult.
    destruct found as [installed|]; [|constructor].
    destruct (parseSkillMd w _); [|constructor].
    assert (H : forall s e a,
               Forall (findingBacked w options
                         {| name := fst entry;
                            path := InstalledSkill.canonicalPath installed;
                            status := s; expectedHash := e; actualHash := a;
                            agents := InstalledSkill.agents installed;
                            brokenSymlinks :=
                              checkSymlinkIntegrity w (fst entry)
                                (InstalledSkill.canonicalPath installed)
                                (agentsToCheckOf w options)
                                (symlinkOptions (isGlobalOf options) (cwdOf w options));
                            error := None |})
                 (checkSymlinkIntegrity w (fst entry)
                    (InstalledSkill.canonicalPath installed)
                    (agentsToCheckOf w options)
                    (symlinkOptions (isGlobalOf options) (cwdOf w options)))).
    { intros st ex ac. apply Forall_forall. intros b Hb.
      now apply checkSymlinkIntegrity_backed. }
    destruct (isGlobalOf options); [apply H|].
    destruct (computeSkillFolderHash w _); [|apply H].
    destruct (truthy _ && strict_neq _ _); apply H.
  - intros entry _ _. unfold untrackedResult. simpl.
    apply Forall_forall. intros b Hb. now apply checkSymlinkIntegrity_backed.
Qed.

(** X9.  Every finding in a result of [verifySkills] names an agent that
    was detected and, when an agent filter is given, that the filter holds;
    its link is that agent's path for the skill, which [lstat] reports as a
    symbolic link and [readlink] resolves to a path other than the result's
    [path]. *)
Theorem verifySkills_findings_backed :
  forall (w : World) (options : Options.t),
    Forall (fun r => Forall (findingBacked w options r) (brokenSymlinks r))
           (results (verifySkills w options)).
Proof. exact verifySkills_findings_backed_all. Qed.

Lemma verifySkills_countsTally w options :
  countsTally (counts (verifySkills w options)) (results (verifySkills w options)).
Proof.
  unfold verifySkills. simpl.
  eapply countsTally_perm; [symmetry; apply Array_sort_perm | apply verifyLoops_tally].
Qed.

Lemma totalBrokenSymlinks_nil rs :
  Forall (fun r => brokenSymlinks r = []) rs -> totalBrokenSymlinks rs = 0.
Proof.
  unfold totalBrokenSymlinks. induction 1 as [|r rs Hr _ IH]; simpl; [reflexivity|].
  rewrite Hr, IH. reflexivity.
Qed.

(** X10.  When no agent is left to check, because none was detected or
    because the agent filter is an empty array, no result holds a finding and
    [counts.brokenSymlinks] is zero: an empty filter does not stand for all
    agents. *)
Theorem verifySkills_no_agents_no_findings :
  forall (w : World) (options : Options.t),
    detectInstalledAgents w = [] \/ Options.agentFilter options = Some [] ->
    Forall (fun r => brokenSymlinks r = []) (results (verifySkills w options))
    /\ Counts.brokenSymlinks (counts (verifySkills w options)) = 0.
Proof.
  intros w options Hnone.
  assert (Hall : Forall (fun r => brokenSymlinks r = []) (results (verifySkills w options))).
  { pose proof (verifySkills_findings_backed_all w options) as H.
    eapply Forall_impl; [|exact H]. intros r Hr. simpl in Hr.
    destruct (brokenSymlinks r) as [|b l]; [reflexivity|]. exfalso.
    inversion Hr as [|? ? (Hd & Hf & _) _]; subst.
    destruct Hnone as [Hnone|Hnone].
    - rewrite Hnone in Hd. exact Hd.
    - exact (Hf [] Hnone). }
  split; [exact Hall|].
  destruct (verifySkills_countsTally w options) as (_ & _ & _ & _ & _ & ->).
  now apply totalBrokenSymlinks_nil.
Qed.

Lemma verifySkills_no_agents_no_findings_witness :
  Forall (fun r => brokenSymlinks r = [])
    (results (verifySkills scenarioRunOne emptyFilterOptions))
  /\ Counts.brokenSymlinks (counts (verifySkills scenarioRunOne emptyFilterOptions)) = 0.
Proof.
  apply (verifySkills_no_agents_no_findings scenarioRunOne emptyFilterOptions).
  right. reflexivity.
Defined.

(** X11.  A [missing] result has the empty path and no agents; every other
    result has the canonical path and the agents of an installed skill of
    its name. *)
Theorem verifySkills_result_provenance :
  forall (w : World) (options : Options.t),
    Forall (resultProvenance w options) (results (verifySkills w options)).
Proof.
  intros w options. apply verifySkills_results_Forall.
  - intros found entry Hfound. unfold resultProvenance, lockedResult.
    destruct found as [installed|]; [|simpl; split; reflexivity].
    destruct (Hfound installed eq_refl) as [Hname Hin].
    assert (Hex : exists s,
               In s (installedSkillsOf w options)
               /\ InstalledSkill.name s = fst entry
               /\ InstalledSkill.canonicalPath installed = InstalledSkill.canonicalPath s
               /\ InstalledSkill.agents installed = InstalledSkill.agents s)
      by (exists installed; repeat split; assumption).
    destruct (parseSkillMd w _); [|exact Hex].
    destruct (isGlobalOf options); [exact Hex|].
    destruct (computeSkillFolderHash w _); [|exact Hex].
    destruct (truthy _ && strict_neq _ _); exact Hex.
  - intros [k s] Hname Hin. unfold resultProvenance, untrackedResult. simpl in *.
    exists s. repeat split; assumption.
Qed.

(** X12.  The hash fields bear out the status.  A [modified] result comes
    from project scope and holds a non-empty recorded hash and a recomputed
    hash that differ.  An [ok] result in project scope holds the recomputed
    hash, and its recorded hash is that same string or is absent or empty; in
    global scope it holds neither.  [missing] and [untracked] results hold
    neither, an [invalid] one no recomputed hash. *)
Theorem verifySkills_hashes_justify_status :
  forall (w : World) (options : Options.t),
    Forall (hashesJustifyStatus options) (results (verifySkills w options)).
Proof.
  intros w options. apply verifySkills_results_Forall.
  - intros found [skillName lockEntry] _. unfold hashesJustifyStatus, lockedResult.
    destruct found as [installed|]; [|simpl; split; reflexivity].
    destruct (parseSkillMd w _); [|reflexivity].
    destruct (isGlobalOf options) eqn:Hg; [simpl; split; reflexivity|].
    destruct (computeSkillFolderHash w _) as [actual|message]; [|reflexivity].
    simpl snd.
    destruct (computedHash lockEntry) as [expected|] eqn:He; simpl.
    + destruct (String.eqb_spec expected "") as [->|Hne]; simpl.
      * exists actual. split; [reflexivity | now right].
      * destruct (String.eqb_spec actual expected) as [->|Hdiff]; simpl.
        -- exists expected. split; [reflexivity | now left].
        -- split; [reflexivity|]. exists expected, actual. repeat split; assumption.
    + exists actual. split; [reflexivity | now right].
  - intros entry _ _. unfold hashesJustifyStatus, untrackedResult. simpl.
    split; reflexivity.
Qed.

(** ** The rows of the status table *)

Lemma In_deleteAll_keep {V E : Type} (entries : list (string * E)) (m : JsMap.t V) k v :
  In (k, v) m -> ~ In k (map fst entries) -> In (k, v) (deleteAll entries m).
Proof.
  unfold deleteAll. revert m. induction entries as [|e l IH]; intros m Hin Hk; simpl.
  - assumption.
  - simpl in Hk. apply IH; [|tauto].
    clear IH. induction m as [|[k0 v0] m IHm]; simpl in *; [contradiction|].
    destruct (String.eqb_spec (fst e) k0) as [E0|Hne].
    + destruct Hin as [[= -> ->]|Hin]; [exfalso; apply Hk; now left | assumption].
    + destruct Hin as [Hin|Hin]; [now left | right; now apply IHm].
Qed.

Lemma In_deleteAll_weak {V E : Type} (entries : list (string * E)) (m : JsMap.t V) k v :
  In (k, v) (deleteAll entries m) -> In (k, v) m.
Proof.
  unfold deleteAll. revert m. induction entries as [|e l IH]; intros m Hin; simpl in *.
  - assumption.
  - eapply In_delete_weak, IH, Hin.
Qed.

(** With each lock key once, the results hold for an installed skill that
    is not locked exactly the result the second loop computes. *)
Lemma verifySkills_result_of_untracked w options skillName installed :
  NoDup (map fst (lockedSkillsOf w options)) ->
  ~ In skillName (map fst (lockedSkillsOf w options)) ->
  JsMap.get skillName (buildInstalledMap (installedSkillsOf w options)) = Some installed ->
  forall r,
    In r (results (verifySkills w options)) /\ name r = skillName
    <-> r = untrackedResult w (isGlobalOf options) (cwdOf w options)
              (agentsToCheckOf w options) (skillName, installed).
Proof.
  intros Hnd Hnot Hget r.
  assert (Hres : In r (results (verifySkills w options))
                 <-> In r (st_results (verifyLoops w options))).
  { unfold verifySkills. simpl.
    split; apply Permutation_in; [|symmetry]; apply Array_sort_perm. }
  rewrite Hres, (verifyLoops_results _ _ Hnd), in_app_iff, !in_map_iff.
  split.
  - intros [[([k e] & Hr & He)|([k s] & Hr & He)] Hname].
    + exfalso. subst r. rewrite name_lockedResult in Hname. simpl in Hname. subst k.
      apply Hnot. change skillName with (fst (skillName, e)). now apply in_map.
    + subst r. simpl in Hname. subst k.
      apply In_deleteAll_weak, In_get_NoDup in He;
        [|apply NoDup_keys_buildInstalledMap].
      congruence.
  - intros ->. split; [|reflexivity].
    right. exists (skillName, installed). split; [reflexivity|].
    apply In_deleteAll_keep; [|assumption].
    now apply JsMapFacts.get_Some_In.
Qed.

Lemma status_lockedResult_found w isGlobal cwd agentsToCheck installed entry :
  status (lockedResult w isGlobal cwd agentsToCheck (Some installed) entry) <> untracked
  /\ status (lockedResult w isGlobal cwd agentsToCheck (Some installed) entry) <> missing.
Proof.
  unfold lockedResult.
  destruct (parseSkillMd w _); [|split; discriminate].
  destruct isGlobal; [split; discriminate|].
  destruct (computeSkillFolderHash w _); [|split; discriminate].
  destruct (truthy _ && strict_neq _ _); split; discriminate.
Qed.

(** X13.  With each lock key once, a result is [untracked] exactly when its
    name is not a key of the lock file, and [missing] exactly when its name
    is a key of the lock file and no installed skill has that name. *)
Theorem verifySkills_status_by_membership :
  forall (w : World) (options : Options.t),
    NoDup (map fst (lockedSkillsOf w options)) ->
    Forall (fun r =>
              (status r = untracked <-> ~ In (name r) (map fst (lockedSkillsOf w options)))
              /\ (status r = missing <->
                  In (name r) (map fst (lockedSkillsOf w options))
                  /\ ~ In (name r)
                       (map InstalledSkill.name (installedSkillsOf w options))))
           (results (verifySkills w options)).
Proof.
  intros w options Hnd.
  unfold verifySkills. simpl.
  eapply Permutation_Forall; [symmetry; apply Array_sort_perm|].
  rewrite (verifyLoops_results _ _ Hnd). apply Forall_app. split.
  - apply Forall_forall. intros r Hr. apply in_map_iff in Hr.
    destruct Hr as ([k e] & <- & Hin). rewrite name_lockedResult. simpl fst.
    assert (Hk : In k (map fst (lockedSkillsOf w options)))
      by (change k with (fst (k, e)); now apply in_map).
    rewrite <- In_keys_buildInstalledMap, <- JsMapFacts.get_None_iff.
    destruct (JsMap.get k _) as [installed|].
    + destruct (status_lockedResult_found w (isGlobalOf options) (cwdOf w options)
                  (agentsToCheckOf w options) installed (k, e)) as [Hu Hm].
      split; split; intros H; try tauto.
      destruct H as [_ H]. discriminate H.
    + simpl. split; split; intros H; try tauto; try discriminate.
  - apply Forall_forall. intros r Hr. apply in_map_iff in Hr.
    destruct Hr as ([k s] & <- & Hin). simpl.
    assert (Hk : ~ In k (map fst (lockedSkillsOf w options))).
    { assert (H : In k (JsMap.keys (deleteAll (lockedSkillsOf w options)
                                      (buildInstalledMap (installedSkillsOf w options)))))
        by (change k with (fst (k, s)); unfold JsMap.keys; now apply in_map).
      apply In_keys_deleteAll in H; [tauto | apply NoDup_keys_buildInstalledMap]. }
    split; split; intros H; try tauto; try discriminate.
Qed.

Lemma verifySkills_status_by_membership_witness :
  Forall (fun r =>
            (status r = untracked <->
             ~ In (name r) (map fst (lockedSkillsOf scenarioUnion FixtureWorld.projectOptions)))
            /\ (status r = missing <->
                In (name r) (map fst (lockedSkillsOf scenarioUnion FixtureWorld.projectOptions))
                /\ ~ In (name r)
                     (map InstalledSkill.name
                        (installedSkillsOf scenarioUnion FixtureWorld.projectOptions))))
         (results (verifySkills scenarioUnion FixtureWorld.projectOptions)).
Proof.
  apply (verifySkills_status_by_membership scenarioUnion FixtureWorld.projectOptions).
  repeat constructor; simpl; intuition discriminate.
Defined.

(** X14.  With each lock key once, a skill that is in the lock file and
    that no installed skill is named after has one result: [missing], with
    the empty path, no agents, no hashes, no findings and the error
    [Skill in lock file but not found on disk]. *)
Theorem verifySkills_missing_row :
  forall (w : World) (options : Options.t) (skillName : string) (lockEntry : LockEntry),
    NoDup (map fst (lockedSkillsOf w options)) ->
    In (skillName, lockEntry) (lockedSkillsOf w options) ->
    ~ In skillName (map InstalledSkill.name (installedSkillsOf w options)) ->
    forall r,
      In r (results (verifySkills w options)) /\ name r = skillName
      <-> r = {| name := skillName; path := ""; status := missing;
                 expectedHash := None; actualHash := None; agents := [];
                 brokenSymlinks := [];
                 error := Some "Skill in lock file but not found on disk" |}.
Proof.
  intros w options skillName lockEntry Hnd Hin Hnot r.
  rewrite (verifySkills_result_of_locked _ _ _ _ Hnd Hin).
  rewrite <- In_keys_buildInstalledMap, <- JsMapFacts.get_None_iff in Hnot.
  rewrite Hnot. reflexivity.
Qed.

Lemma verifySkills_missing_row_witness :
  In {| name := "b"; path := ""; status := missing;
        expectedHash := None; actualHash := None; agents := [];
        brokenSymlinks := [];
        error := Some "Skill in lock file but not found on disk" |}
     (results (verifySkills scenarioUnion FixtureWorld.projectOptions))
  /\ name {| name := "b"; path := ""; status := missing;
              expectedHash := None; actualHash := None; agents := [];
              brokenSymlinks := [];
              error := Some "Skill in lock file but not found on disk" |} = "b".
Proof.
  refine (proj2 (verifySkills_missing_row scenarioUnion FixtureWorld.projectOptions "b"
                   {| source := "test/repo"; sourceType := "github"; computedHash := Some "h1" |} _ _ _ _) eq_refl).
  - repeat constructor; simpl; intuition discriminate.
  - left. reflexivity.
  - simpl. intuition discriminate.
Defined.

(** X15.  With each lock key once, an installed skill whose name is not a
    key of the lock file has one result: [untracked], with the path and the
    agents of the skill last listed under that name, no hashes, the findings
    of the checker, and the error [Skill on disk but not in lock file]. *)
Theorem verifySkills_untracked_row :
  forall (w : World) (options : Options.t) (skillName : string)
         (installed : InstalledSkill.t),
    NoDup (map fst (lockedSkillsOf w options)) ->
    ~ In skillName (map fst (lockedSkillsOf w options)) ->
    JsMap.get skillName (buildInstalledMap (installedSkillsOf w options)) = Some installed ->
    forall r,
      In r (results (verifySkills w options)) /\ name r = skillName
      <-> r = {| name := skillName;
                 path := InstalledSkill.canonicalPath installed;
                 status := untracked;
                 expectedHash := None; actualHash := None;
                 agents := InstalledSkill.agents installed;
                 brokenSymlinks :=
                   checkSymlinkIntegrity w skillName (InstalledSkill.canonicalPath installed)
                     (agentsToCheckOf w options)
                     (symlinkOptions (isGlobalOf options) (cwdOf w options));
                 error := Some "Skill on disk but not in lock file" |}.
Proof.
  intros w options skillName installed Hnd Hnot Hget r.
  rewrite (verifySkills_result_of_untracked _ _ _ _ Hnd Hnot Hget). reflexivity.
Qed.

Lemma verifySkills_untracked_row_witness :
  In {| name := "c";
        path := InstalledSkill.canonicalPath (FixtureWorld.installedAt "c" []);
        status := untracked;
        expectedHash := None; actualHash := None;
        agents := InstalledSkill.agents (FixtureWorld.installedAt "c" []);
        brokenSymlinks :=
          checkSymlinkIntegrity scenarioUnion "c"
            (InstalledSkill.canonicalPath (FixtureWorld.installedAt "c" []))
            (agentsToCheckOf scenarioUnion FixtureWorld.projectOptions)
            (symlinkOptions (isGlobalOf FixtureWorld.projectOptions)
               (cwdOf scenarioUnion FixtureWorld.projectOptions));
        error := Some "Skill on disk but not in lock file" |}
     (results (verifySkills scenarioUnion FixtureWorld.projectOptions))
  /\ name {| name := "c";
        path := InstalledSkill.canonicalPath (FixtureWorld.installedAt "c" []);
        status := untracked;
        expectedHash := None; actualHash := None;
        agents := InstalledSkill.agents (FixtureWorld.installedAt "c" []);
        brokenSymlinks :=
          checkSymlinkIntegrity scenarioUnion "c"
            (InstalledSkill.canonicalPath (FixtureWorld.installedAt "c" []))
            (agentsToCheckOf scenarioUnion FixtureWorld.projectOptions)
            (symlinkOptions (isGlobalOf FixtureWorld.projectOptions)
               (cwdOf scenarioUnion FixtureWorld.projectOptions));
        error := Some "Skill on disk but not in lock file" |} = "c".
Proof.
  refine (proj2 (verifySkills_untracked_row scenarioUnion FixtureWorld.projectOptions "c"
                   (FixtureWorld.installedAt "c" []) _ _ _ _) eq_refl).
  - repeat constructor; simpl; intuition discriminate.
  - simpl. intuition discriminate.
  - reflexivity.
Defined.

(** X16.  With each lock key once, in either scope, a skill that is in the
    lock file and installed and whose SKILL.md does not parse has one result:
    [invalid], with the skill's path and agents, no hashes, no findings and
    the error [SKILL.md is missing or invalid]; its fingerprint is not
    asked for. *)
Theorem verifySkills_invalid_metadata_row :
  forall (w : World) (options : Options.t) (skillName : string)
         (lockEntry : LockEntry) (installed : InstalledSkill.t),
    NoDup (map fst (lockedSkillsOf w options)) ->
    In (skillName, lockEntry) (lockedSkillsOf w options) ->
    JsMap.get skillName (buildInstalledMap (installedSkillsOf w options)) = Some installed ->
    parseSkillMd w (join w (InstalledSkill.canonicalPath installed) "SKILL.md") = None ->
    forall r,
      In r (results (verifySkills w options)) /\ name r = skillName
      <-> r = {| name := skillName;
                 path := InstalledSkill.canonicalPath installed;
                 status := invalid;
                 expectedHash := None; actualHash := None;
                 agents := InstalledSkill.agents installed;
                 brokenSymlinks := [];
                 error := Some "SKILL.md is missing or invalid" |}.
Proof.
  intros w options skillName lockEntry installed Hnd Hin Hget Hmd r.
  rewrite (verifySkills_result_of_locked _ _ _ _ Hnd Hin), Hget.
  unfold lockedResult. rewrite Hmd. reflexivity.
Qed.

Lemma verifySkills_invalid_metadata_row_witness :
  In {| name := "x";
        path := InstalledSkill.canonicalPath (FixtureWorld.installedAt "x" ["cursor"]);
        status := invalid;
        expectedHash := None; actualHash := None;
        agents := InstalledSkill.agents (FixtureWorld.installedAt "x" ["cursor"]);
        brokenSymlinks := [];
        error := Some "SKILL.md is missing or invalid" |}
     (results (verifySkills scenarioDanglingLinks FixtureWorld.projectOptions))
  /\ name {| name := "x";
        path := InstalledSkill.canonicalPath (FixtureWorld.installedAt "x" ["cursor"]);
        status := invalid;
        expectedHash := None; actualHash := None;
        agents := InstalledSkill.agents (FixtureWorld.installedAt "x" ["cursor"]);
        brokenSymlinks := [];
        error := Some "SKILL.md is missing or invalid" |} = "x".
Proof.
  refine (proj2 (verifySkills_invalid_metadata_row scenarioDanglingLinks
                   FixtureWorld.projectOptions "x" {| source := "test/repo"; sourceType := "github"; computedHash := Some "h1" |}
                   (FixtureWorld.installedAt "x" ["cursor"]) _ _ _ _ _) eq_refl).
  - repeat constructor; simpl; intuition discriminate.
  - left. reflexivity.
  - reflexivity.
  - reflexivity.
Defined.

(** X17.  With each lock key once, in project scope, a skill that is in the
    lock file and installed with a SKILL.md that parses and whose fingerprint
    cannot be computed has one result: [invalid], with the recorded hash as
    [expectedHash], no [actualHash], the findings of the checker, and no
    [error]. *)
Theorem verifySkills_hash_failure_row :
  forall (w : World) (options : Options.t) (skillName : string)
         (lockEntry : LockEntry) (installed : InstalledSkill.t) (md : Skill)
         (message : string),
    isGlobalOf options = false ->
    NoDup (map fst (lockedSkillsOf w options)) ->
    In (skillName, lockEntry) (lockedSkillsOf w options) ->
    JsMap.get skillName (buildInstalledMap (installedSkillsOf w options)) = Some installed ->
    parseSkillMd w (join w (InstalledSkill.canonicalPath installed) "SKILL.md") = Some md ->
    computeSkillFolderHash w (InstalledSkill.canonicalPath installed) = Rejected message ->
    forall r,
      In r (results (verifySkills w options)) /\ name r = skillName
      <-> r = {| name := skillName;
                 path := InstalledSkill.canonicalPath installed;
                 status := invalid;
                 expectedHash := computedHash lockEntry; actualHash := None;
                 agents := InstalledSkill.agents installed;
                 brokenSymlinks :=
                   checkSymlinkIntegrity w skillName (InstalledSkill.canonicalPath installed)
                     (agentsToCheckOf w options)
                     (symlinkOptions (isGlobalOf options) (cwdOf w options));
                 error := None |}.
Proof.
  intros w options skillName lockEntry installed md message Hg Hnd Hin Hget Hmd Hthrow r.
  rewrite (verifySkills_result_of_locked _ _ _ _ Hnd Hin), Hget.
  unfold lockedResult. rewrite Hmd, Hg, Hthrow. reflexivity.
Qed.

Lemma verifySkills_hash_failure_row_witness :
  In {| name := "x";
        path := InstalledSkill.canonicalPath (FixtureWorld.installedAt "x" []);
        status := invalid;
        expectedHash := computedHash {| source := "test/repo"; sourceType := "github"; computedHash := Some "h1" |}; actualHash := None;
        agents := InstalledSkill.agents (FixtureWorld.installedAt "x" []);
        brokenSymlinks :=
          checkSymlinkIntegrity scenarioHashThrows "x"
            (InstalledSkill.canonicalPath (FixtureWorld.installedAt "x" []))
            (agentsToCheckOf scenarioHashThrows FixtureWorld.projectOptions)
            (symlinkOptions (isGlobalOf FixtureWorld.projectOptions)
               (cwdOf scenarioHashThrows FixtureWorld.projectOptions));
        error := None |}
     (results (verifySkills scenarioHashThrows FixtureWorld.projectOptions))
  /\ name {| name := "x";
        path := InstalledSkill.canonicalPath (FixtureWorld.installedAt "x" []);
        status := invalid;
        expectedHash := computedHash {| source := "test/repo"; sourceType := "github"; computedHash := Some "h1" |}; actualHash := None;
        agents := InstalledSkill.agents (FixtureWorld.installedAt "x" []);
        brokenSymlinks :=
          checkSymlinkIntegrity scenarioHashThrows "x"
            (InstalledSkill.canonicalPath (FixtureWorld.installedAt "x" []))
            (agentsToCheckOf scenarioHashThrows FixtureWorld.projectOptions)
            (symlinkOptions (isGlobalOf FixtureWorld.projectOptions)
               (cwdOf scenarioHashThrows FixtureWorld.projectOptions));
        error := None |} = "x".
Proof.
  refine (proj2 (verifySkills_hash_failure_row scenarioHashThrows
                   FixtureWorld.projectOptions "x" {| source := "test/repo"; sourceType := "github"; computedHash := Some "h1" |}
                   (FixtureWorld.installedAt "x" []) {| skill_name := "skill"; skill_description := "a skill" |}
                   "EACCES: permission denied" _ _ _ _ _ _ _) eq_refl).
  - reflexivity.
  - repeat constructor; simpl; intuition discriminate.
  - left. reflexivity.
  - reflexivity.
  - reflexivity.
  - reflexivity.
Defined.

(** X18.  With each lock key once, in project scope, a skill that is in the
    lock file and installed with a SKILL.md that parses and whose recomputed
    fingerprint is the recorded hash has one result: [ok], with that hash as
    [expectedHash] and as [actualHash], the findings of the checker, and no
    [error]. *)
Theorem verifySkills_hash_match_row :
  forall (w : World) (options : Options.t) (skillName : string)
         (lockEntry : LockEntry) (installed : InstalledSkill.t) (md : Skill)
         (hash : string),
    isGlobalOf options = false ->
    NoDup (map fst (lockedSkillsOf w options)) ->
    In (skillName, lockEntry) (lockedSkillsOf w options) ->
    JsMap.get skillName (buildInstalledMap (installedSkillsOf w options)) = Some installed ->
    parseSkillMd w (join w (InstalledSkill.canonicalPath installed) "SKILL.md") = Some md ->
    computedHash lockEntry = Some hash ->
    computeSkillFolderHash w (InstalledSkill.canonicalPath installed) = Resolved hash ->
    forall r,
      In r (results (verifySkills w options)) /\ name r = skillName
      <-> r = {| name := skillName;
                 path := InstalledSkill.canonicalPath installed;
                 status := ok;
                 expectedHash := Some hash; actualHash := Some hash;
                 agents := InstalledSkill.agents installed;
                 brokenSymlinks :=
                   checkSymlinkIntegrity w skillName (InstalledSkill.canonicalPath installed)
                     (agentsToCheckOf w options)
                     (symlinkOptions (isGlobalOf options) (cwdOf w options));
                 error := None |}.
Proof.
  intros w options skillName lockEntry installed md hash Hg Hnd Hin Hget Hmd Hrec Hact r.
  rewrite (verifySkills_result_of_locked _ _ _ _ Hnd Hin), Hget.
  unfold lockedResult. rewrite Hmd, Hg, Hact. simpl snd. rewrite Hrec.
  unfold strict_neq. rewrite String.eqb_refl, andb_false_r. reflexivity.
Qed.

Lemma verifySkills_hash_match_row_witness :
  In {| name := "a";
        path := InstalledSkill.canonicalPath (FixtureWorld.installedAt "a" ["cursor"]);
        status := ok;
        expectedHash := Some "h2"; actualHash := Some "h2";
        agents := InstalledSkill.agents (FixtureWorld.installedAt "a" ["cursor"]);
        brokenSymlinks :=
          checkSymlinkIntegrity scenarioUnion "a"
            (InstalledSkill.canonicalPath (FixtureWorld.installedAt "a" ["cursor"]))
            (agentsToCheckOf scenarioUnion FixtureWorld.projectOptions)
            (symlinkOptions (isGlobalOf FixtureWorld.projectOptions)
               (cwdOf scenarioUnion FixtureWorld.projectOptions));
        error := None |}
     (results (verifySkills scenarioUnion FixtureWorld.projectOptions))
  /\ name {| name := "a";
        path := InstalledSkill.canonicalPath (FixtureWorld.installedAt "a" ["cursor"]);
        status := ok;
        expectedHash := Some "h2"; actualHash := Some "h2";
        agents := InstalledSkill.agents (FixtureWorld.installedAt "a" ["cursor"]);
        brokenSymlinks :=
          checkSymlinkIntegrity scenarioUnion "a"
            (InstalledSkill.canonicalPath (FixtureWorld.installedAt "a" ["cursor"]))
            (agentsToCheckOf scenarioUnion FixtureWorld.projectOptions)
            (symlinkOptions (isGlobalOf FixtureWorld.projectOptions)
               (cwdOf scenarioUnion FixtureWorld.projectOptions));
        error := None |} = "a".
Proof.
  refine (proj2 (verifySkills_hash_match_row scenarioUnion FixtureWorld.projectOptions "a"
                   {| source := "test/repo"; sourceType := "github"; computedHash := Some "h2" |} (FixtureWorld.installedAt "a" ["cursor"]) {| skill_name := "skill"; skill_description := "a skill" |} "h2"
                   _ _ _ _ _ _ _ _) eq_refl).
  - reflexivity.
  - repeat constructor; simpl; intuition discriminate.
  - right. left. reflexivity.
  - reflexivity.
  - reflexivity.
  - reflexivity.
  - reflexivity.
Defined.

(** ** The order of the lock entries does not show *)










(** ** What is printed *)

Lemma tally_pos s rs : 0 < tally s rs <-> Exists (fun r => status r = s) rs.
Proof.
  unfold tally. induction rs as [|r rs IH]; simpl.
  - rewrite Exists_nil. lia.
  - rewrite Exists_cons.
    destruct (VerifyStatus_eqb (status r) s) eqn:E; simpl.
    + split; [|lia]. intros _. left. destruct (status r), s; (reflexivity || discriminate).
    + rewrite IH. split; [now right|].
      intros [Hr|H]; [|assumption].
      rewrite Hr in E. destruct s; discriminate.
Qed.

Lemma totalBrokenSymlinks_pos rs :
  0 < totalBrokenSymlinks rs <-> Exists (fun r => brokenSymlinks r <> []) rs.
Proof.
  unfold totalBrokenSymlinks. induction rs as [|r rs IH]; simpl.
  - rewrite Exists_nil. lia.
  - rewrite Exists_cons.
    destruct (brokenSymlinks r) as [|b l] eqn:E; simpl.
    + rewrite IH. split; [now right|].
      intros [Hr|H]; [now contradiction Hr | assumption].
    + split; [|lia]. intros _. left. discriminate.
Qed.

Lemma partIf_pos n text : 0 < n -> partIf n text = [text].
Proof.
  unfold partIf. intros H. destruct (Nat.ltb_spec 0 n); [reflexivity | lia].
Qed.

Lemma partIf_zero text : partIf 0 text = [].
Proof. reflexivity. Qed.

Lemma counts_positive w options :
  results (verifySkills w options) <> [] ->
  let c := counts (verifySkills w options) in
  0 < Counts.ok c \/ 0 < Counts.modified c \/ 0 < Counts.missing c
  \/ 0 < Counts.untracked c \/ 0 < Counts.invalid c.
Proof.
  intros Hne c.
  destruct (verifySkills_countsTally w options) as (H1 & H2 & H3 & H4 & H5 & _).
  pose proof (tally_total (results (verifySkills w options))) as Htot.
  fold c in H1, H2, H3, H4, H5.
  destruct (results (verifySkills w options)) as [|r rs]; [contradiction|].
  simpl List.length in Htot. lia.
Qed.

Lemma app_cons_not_nil_l {A : Type} (l1 l2 : list A) : l1 <> [] -> l1 ++ l2 <> [].
Proof. destruct l1; [contradiction | discriminate]. Qed.

Lemma app_cons_not_nil_r {A : Type} (l1 l2 : list A) : l2 <> [] -> l1 ++ l2 <> [].
Proof. destruct l1, l2; try contradiction; discriminate. Qed.

Lemma partIf_not_nil n text : 0 < n -> partIf n text <> [].
Proof. intros H. rewrite (partIf_pos _ _ H). discriminate. Qed.

(** X20.  When [verifySkills] returns at least one result, the standard and
    the verbose output both end their report with a [Summary:] line that
    names at least one count: the list of parts is never empty, one of the
    five status counters being positive. *)
Theorem format_summary_line_has_parts :
  forall (h : Host) (w : World) (options : Options.t) (cwd : string),
    let summary := verifySkills w options in
    results summary <> [] ->
    standardSummaryParts h (counts summary) <> []
    /\ In ("Summary: " ++ join_comma (standardSummaryParts h (counts summary)))%string
          (formatStandardOutput h summary cwd)
    /\ verboseSummaryParts (counts summary) <> []
    /\ In ("Summary: " ++ join_comma (verboseSummaryParts (counts summary)))%string
          (formatVerboseOutput h summary cwd).
Proof.
  intros h w options cwd summary Hne.
  pose proof (counts_positive w options Hne) as Hpos. fold summary in Hpos. simpl in Hpos.
  assert (Hstd : standardSummaryParts h (counts summary) <> []).
  { unfold standardSummaryParts.
    destruct Hpos as [H|[H|[H|[H|H]]]].
    - apply app_cons_not_nil_l. now apply partIf_not_nil.
    - apply app_cons_not_nil_r, app_cons_not_nil_l. now apply partIf_not_nil.
    - do 2 apply app_cons_not_nil_r. apply app_cons_not_nil_l. now apply partIf_not_nil.
    - do 3 apply app_cons_not_nil_r. apply app_cons_not_nil_l. now apply partIf_not_nil.
    - do 4 apply app_cons_not_nil_r. apply app_cons_not_nil_l. now apply partIf_not_nil. }
  assert (Hverb : verboseSummaryParts (counts summary) <> []).
  { unfold verboseSummaryParts.
    destruct Hpos as [H|[H|[H|[H|H]]]].
    - apply app_cons_not_nil_l. now apply partIf_not_nil.
    - apply app_cons_not_nil_r, app_cons_not_nil_l. now apply partIf_not_nil.
    - do 2 apply app_cons_not_nil_r. apply app_cons_not_nil_l. now apply partIf_not_nil.
    - do 3 apply app_cons_not_nil_r. apply app_cons_not_nil_l. now apply partIf_not_nil.
    - do 4 apply app_cons_not_nil_r. apply app_cons_not_nil_l. now apply partIf_not_nil. }
  assert (Hlen : (List.length (results summary) =? 0) = false).
  { destruct (results summary); [contradiction | reflexivity]. }
  split; [exact Hstd|]. split; [|split; [exact Hverb|]].
  - unfold formatStandardOutput. rewrite Hlen.
    destruct (standardSummaryParts h (counts summary)) as [|p ps] eqn:E;
      [contradiction|].
    apply in_or_app. right. apply in_or_app. right. apply in_or_app. right.
    apply in_or_app. left. simpl. now left.
  - unfold formatVerboseOutput. rewrite Hlen.
    apply in_or_app. right. apply in_or_app. right. now left.
Qed.

Lemma format_summary_line_has_parts_witness :
  let summary := verifySkills scenarioUnion FixtureWorld.projectOptions in
  standardSummaryParts plainHost (counts summary) <> []
  /\ In ("Summary: " ++ join_comma (standardSummaryParts plainHost (counts summary)))%string
        (formatStandardOutput plainHost summary "/proj")
  /\ verboseSummaryParts (counts summary) <> []
  /\ In ("Summary: " ++ join_comma (verboseSummaryParts (counts summary)))%string
        (formatVerboseOutput plainHost summary "/proj").
Proof.
  apply (format_summary_line_has_parts plainHost scenarioUnion
           FixtureWorld.projectOptions "/proj").
  discriminate.
Defined.

Lemma tally_all_ok rs :
  Forall (fun r => status r = ok /\ brokenSymlinks r = []) rs ->
  tally ok rs = List.length rs /\ tally modified rs = 0 /\ tally missing rs = 0
  /\ tally untracked rs = 0 /\ tally invalid rs = 0 /\ totalBrokenSymlinks rs = 0
  /\ forall h cwd, flat_map (standardResultLines h cwd) rs = [].
Proof.
  unfold tally, totalBrokenSymlinks.
  induction 1 as [|r rs [Hs Hb] _ (I1 & I2 & I3 & I4 & I5 & I6 & I7)]; simpl.
  - repeat split; reflexivity.
  - rewrite Hs, Hb. simpl. rewrite I1, I2, I3, I4, I5, I6.
    repeat split; try reflexivity.
    intros h cwd. unfold standardResultLines at 1. rewrite Hs, Hb. simpl. apply I7.
Qed.

(** X21.  When [verifySkills] returns results that are all [ok] without
    findings, the standard output is four lines: the header, an empty line,
    a summary that counts every skill as verified, and
    [All n skills verified successfully.] *)
Theorem formatStandardOutput_all_verified :
  forall (h : Host) (w : World) (options : Options.t) (cwd : string),
    let summary := verifySkills w options in
    results summary <> [] ->
    Forall (fun r => status r = ok /\ brokenSymlinks r = []) (results summary) ->
    let n := numberToString (List.length (results summary)) in
    formatStandardOutput h summary cwd
    = [headerLine summary;
       ""%string;
       ("Summary: " ++ pc_green h (n ++ " verified"))%string;
       pc_green h ("All " ++ n ++ " skills verified successfully.")%string].
Proof.
  intros h w options cwd summary Hne Hall n.
  destruct (verifySkills_countsTally w options) as (H1 & H2 & H3 & H4 & H5 & H6).
  fold summary in H1, H2, H3, H4, H5, H6.
  destruct (tally_all_ok _ Hall) as (T1 & T2 & T3 & T4 & T5 & T6 & Tlines).
  rewrite T1 in H1. rewrite T2 in H2. rewrite T3 in H3. rewrite T4 in H4.
  rewrite T5 in H5. rewrite T6 in H6.
  assert (Hpos : 0 < List.length (results summary))
    by (destruct (results summary); [contradiction | simpl; lia]).
  unfold formatStandardOutput, standardSummaryParts, hasIssuesShown.
  rewrite H1, H2, H3, H4, H5, H6, Tlines.
  rewrite (partIf_pos _ _ Hpos), !partIf_zero.
  destruct (Nat.eqb_spec (List.length (results summary)) 0) as [E|_]; [lia|].
  destruct (Nat.ltb_spec 0 (List.length (results summary))) as [_|]; [|lia].
  reflexivity.
Qed.

Lemma formatStandardOutput_all_verified_witness :
  let summary := verifySkills scenarioGlobal FixtureWorld.globalOptions in
  let n := numberToString (List.length (results summary)) in
  formatStandardOutput plainHost summary "/proj"
  = [headerLine summary;
     ""%string;
     ("Summary: " ++ pc_green plainHost (n ++ " verified"))%string;
     pc_green plainHost ("All " ++ n ++ " skills verified successfully.")%string].
Proof.
  apply (formatStandardOutput_all_verified plainHost scenarioGlobal
           FixtureWorld.globalOptions "/proj").
  - discriminate.
  - repeat constructor.
Defined.

(** X22.  In project scope, for a skill that is in the lock file and
    installed with a SKILL.md that parses and whose fingerprint cannot be
    computed, the standard output holds the line of the skill with the reason
    [(invalid - undefined)]: the result has no error to show. *)
Theorem formatStandardOutput_hash_failure_line :
  forall (h : Host) (cwd : string) (w : World) (options : Options.t)
         (skillName : string) (lockEntry : LockEntry) (installed : InstalledSkill.t)
         (md : Skill) (message : string),
    isGlobalOf options = false ->
    NoDup (map fst (lockedSkillsOf w options)) ->
    In (skillName, lockEntry) (lockedSkillsOf w options) ->
    JsMap.get skillName (buildInstalledMap (installedSkillsOf w options)) = Some installed ->
    parseSkillMd w (join w (InstalledSkill.canonicalPath installed) "SKILL.md") = Some md ->
    computeSkillFolderHash w (InstalledSkill.canonicalPath installed) = Rejected message ->
    In ("  " ++ pc_red h skillName ++ " " ++ pc_dim h "(invalid - undefined)")%string
       (formatStandardOutput h (verifySkills w options) cwd).
Proof.
  intros h cwd w options skillName lockEntry installed md message
         Hg Hnd Hin Hget Hmd Hthrow.
  pose proof (verifySkills_result_of_locked _ _ _ _ Hnd Hin) as Hiff.
  rewrite Hget in Hiff. unfold lockedResult in Hiff.
  rewrite Hmd, Hg, Hthrow in Hiff.
  destruct (proj2 (Hiff _) eq_refl) as [Hr _].
  unfold formatStandardOutput.
  destruct (results (verifySkills w options)) as [|r0 rs] eqn:E; [contradiction|].
  cbn [List.length Nat.eqb].
  apply in_or_app. right. apply in_or_app. left.
  apply in_flat_map. eexists. split; [exact Hr|].
  unfold standardResultLines. simpl. now left.
Qed.

Lemma formatStandardOutput_hash_failure_line_witness :
  In ("  " ++ pc_red plainHost "x" ++ " " ++ pc_dim plainHost "(invalid - undefined)")%string
     (formatStandardOutput plainHost
        (verifySkills scenarioHashThrows FixtureWorld.projectOptions) "/proj").
Proof.
  apply (formatStandardOutput_hash_failure_line plainHost "/proj" scenarioHashThrows
           FixtureWorld.projectOptions "x"
           {| source := "test/repo"; sourceType := "github"; computedHash := Some "h1" |}
           (FixtureWorld.installedAt "x" [])
           {| skill_name := "skill"; skill_description := "a skill" |}
           "EACCES: permission denied").
  - reflexivity.
  - repeat constructor; simpl; intuition discriminate.
  - left. reflexivity.
  - reflexivity.
  - reflexivity.
  - reflexivity.
Defined.

(** ** [runVerify] *)

Lemma hasIssuesExit_fails c rs :
  countsTally c rs -> (hasIssuesExit c = true <-> Exists failsRun rs).
Proof.
  intros (_ & H2 & H3 & _ & H5 & H6). unfold hasIssuesExit.
  rewrite !orb_true_iff, !Nat.ltb_lt, H2, H3, H5, H6, !tally_pos, totalBrokenSymlinks_pos.
  rewrite !Exists_exists. unfold failsRun. split.
  - intros [[[(r & Hr & H)|(r & Hr & H)]|(r & Hr & H)]|(r & Hr & H)];
      exists r; tauto.
  - intros (r & Hr & [H|[H|[H|H]]]).
    + left. left. left. now exists r.
    + left. left. right. now exists r.
    + left. right. now exists r.
    + right. now exists r.
Qed.

Lemma passesRun_not_fails r : passesRun r <-> ~ failsRun r.
Proof.
  unfold passesRun, failsRun.
  destruct (status r), (brokenSymlinks r) as [|b l]; split;
    try (intros [[H|H] H']; discriminate);
    try (intros H; exfalso; apply H; tauto);
    try (intros H; exfalso; apply H; right; right; right; discriminate);
    try (intros _; split; [tauto | reflexivity]);
    try (intros _ [H|[H|[H|H]]]; try discriminate; now apply H).
Qed.

(** X23.  When the agent names pass validation, [runVerify] exits with
    code 1 exactly when some result is [modified], [missing] or [invalid] or
    holds a finding, and returns without calling [process.exit] exactly when
    every result is [ok] or [untracked] and holds no finding: untracked
    skills alone never fail the run. *)
Theorem runVerify_exit_code :
  forall (h : Host) (w : World) (args : list string)
         (agentFilter : option (list AgentType)),
    validateAgents h (parseVerifyOptions args) = inr agentFilter ->
    let summary := verifySkills w (runOptions w args agentFilter) in
    (exitCode (runVerify h w args) = Some 1 <-> Exists failsRun (results summary))
    /\ (exitCode (runVerify h w args) = None <-> Forall passesRun (results summary)).
Proof.
  intros h w args agentFilter Hvalid summary.
  unfold runVerify. rewrite Hvalid. cbn [exitCode].
  fold (runOptions w args agentFilter). fold summary.
  pose proof (hasIssuesExit_fails _ _ (verifySkills_countsTally w (runOptions w args agentFilter)))
    as Hiff.
  fold summary in Hiff.
  assert (Hpass : Forall passesRun (results summary) <-> ~ Exists failsRun (results summary)).
  { rewrite <- Forall_Exists_neg. split; apply Forall_impl; intros r; apply passesRun_not_fails. }
  rewrite Hpass, <- Hiff.
  destruct (hasIssuesExit (counts summary)); split; split; intros H;
    try reflexivity; try discriminate; try (exfalso; now apply H).
Qed.

Lemma runVerify_exit_code_witness :
  let summary :=
    verifySkills scenarioUnion (runOptions scenarioUnion ["-v"; "-a"; "cursor"] (Some ["cursor"])) in
  (exitCode (runVerify plainHost scenarioUnion ["-v"; "-a"; "cursor"]) = Some 1
   <-> Exists failsRun (results summary))
  /\ (exitCode (runVerify plainHost scenarioUnion ["-v"; "-a"; "cursor"]) = None
      <-> Forall passesRun (results summary)).
Proof.
  apply (runVerify_exit_code plainHost scenarioUnion ["-v"; "-a"; "cursor"] (Some ["cursor"])).
  reflexivity.
Defined.

Lemma includes_false (l : list string) a : ~ In a l -> includes l a = false.
Proof.
  intros H. unfold includes. destruct (existsb (String.eqb a) l) eqn:E; [|reflexivity].
  apply existsb_exists in E. destruct E as (x & Hx & Hax).
  apply String.eqb_eq in Hax. subst x. contradiction.
Qed.

Lemma validateAgents_invalid h options a :
  In a (agentNames options) -> ~ In a (agentKeys h) ->
  exists invalidAgents, validateAgents h options = inl invalidAgents /\ In a invalidAgents.
Proof.
  unfold agentNames, validateAgents. intros Hin Hnot.
  destruct (VerifyOptions.agent options) as [[|a0 l]|]; try contradiction.
  set (invalidAgents := filter (fun x => negb (includes (agentKeys h) x)) (a0 :: l)).
  assert (Ha : In a invalidAgents).
  { apply filter_In. split; [exact Hin|]. now rewrite includes_false. }
  exists invalidAgents.
  destruct invalidAgents as [|x xs]; [contradiction|]. split; [reflexivity | exact Ha].
Qed.

(** X24.  When one of the agent names given after [-a] or [--agent] is not
    a key of the agent catalogue, [runVerify] logs two lines, tracks nothing
    and exits with code 1; nothing is verified, the outcome being the same
    for every lock file and disk. *)
Theorem runVerify_invalid_agent :
  forall (h : Host) (w : World) (args : list string) (a : string),
    In a (agentNames (parseVerifyOptions args)) ->
    ~ In a (agentKeys h) ->
    exitCode (runVerify h w args) = Some 1
    /\ tracked (runVerify h w args) = None
    /\ List.length (stdout (runVerify h w args)) = 2
    /\ forall w' : World, runVerify h w' args = runVerify h w args.
Proof.
  intros h w args a Hin Hnot.
  destruct (validateAgents_invalid h _ a Hin Hnot) as (invalidAgents & Hv & _).
  unfold runVerify. rewrite Hv. repeat split.
Qed.

Lemma runVerify_invalid_agent_witness :
  exitCode (runVerify plainHost scenarioUnion ["-a"; "cursor"; "invalid-agent"]) = Some 1
  /\ tracked (runVerify plainHost scenarioUnion ["-a"; "cursor"; "invalid-agent"]) = None
  /\ List.length (stdout (runVerify plainHost scenarioUnion ["-a"; "cursor"; "invalid-agent"]))
     = 2
  /\ forall w' : World,
       runVerify plainHost w' ["-a"; "cursor"; "invalid-agent"]
       = runVerify plainHost scenarioUnion ["-a"; "cursor"; "invalid-agent"].
Proof.
  apply (runVerify_invalid_agent plainHost scenarioUnion
           ["-a"; "cursor"; "invalid-agent"] "invalid-agent").
  - right. left. reflexivity.
  - simpl. intuition discriminate.
Defined.

(** X25.  When the agent names pass validation and [--json] is among the
    arguments, wherever it stands and whether or not [-v] is given, the
    output is one line, the JSON of the summary. *)
Theorem runVerify_json_first :
  forall (h : Host) (w : World) (args : list string)
         (agentFilter : option (list AgentType)),
    In "--json" args ->
    validateAgents h (parseVerifyOptions args) = inr agentFilter ->
    stdout (runVerify h w args)
    = [JSON_stringify h (verifySkills w (runOptions w args agentFilter))].
Proof.
  intros h w args agentFilter Hjson Hvalid.
  assert (Hj : VerifyOptions.json (parseVerifyOptions args) = Some true).
  { rewrite parseVerifyOptions_run, run_json.
    apply in_json_existsb in Hjson. now rewrite Hjson. }
  unfold runVerify. rewrite Hvalid. cbn [stdout]. rewrite Hj. reflexivity.
Qed.

Lemma runVerify_json_first_witness :
  stdout (runVerify plainHost scenarioUnion ["-v"; "--json"])
  = [JSON_stringify plainHost
       (verifySkills scenarioUnion (runOptions scenarioUnion ["-v"; "--json"] None))].
Proof.
  apply (runVerify_json_first plainHost scenarioUnion ["-v"; "--json"] None).
  - right. left. reflexivity.
  - reflexivity.
Defined.

(** ** The installed skills *)

(** X26.  When the installer lists several skills under one name,
    [installedMap] holds the last of them: a skill is found under its name
    when no skill listed after it has that name. *)
Theorem buildInstalledMap_last_wins :
  forall (before after : list InstalledSkill.t) (s : InstalledSkill.t),
    ~ In (InstalledSkill.name s) (map InstalledSkill.name after) ->
    JsMap.get (InstalledSkill.name s) (buildInstalledMap (before ++ s :: after)) = Some s.
Proof.
  intros before after s Hnot. unfold buildInstalledMap.
  rewrite fold_left_app. cbn [fold_left].
  rewrite get_fold_set_other by exact Hnot.
  apply JsMapFacts.get_set_eq.
Qed.

Lemma buildInstalledMap_last_wins_witness :
  JsMap.get (InstalledSkill.name (FixtureWorld.installedAt "a" ["cursor"]))
    (buildInstalledMap
       ([FixtureWorld.installedAt "c" []; FixtureWorld.installedAt "a" []]
        ++ FixtureWorld.installedAt "a" ["cursor"] :: []))
  = Some (FixtureWorld.installedAt "a" ["cursor"]).
Proof.
  apply (buildInstalledMap_last_wins
           [FixtureWorld.installedAt "c" []; FixtureWorld.installedAt "a" []] []
           (FixtureWorld.installedAt "a" ["cursor"])).
  simpl. tauto.
Defined.






